(** * A line-oriented interpreter: lexer, parser, evaluator and line runner

    A shallow embedding of [interpreter.py].  Every line of a script is
    lexed on demand, parsed by recursive descent into a tree and evaluated
    against one environment that lives for the whole run.

    Conventions of the embedding:
    - a Python [str] is a [string] of 8-bit code points (the Latin-1 range
      of Unicode); the character classes [isspace], [isdigit], [isalpha]
      and [isalnum] are Python's on that range;
    - a Python [float] is a primitive binary64 [float]; a Python [int]
      (which the language reaches through booleans: [-True] is [-1]) is a
      [Z];
    - an exception is a value of type [exn]; a call that may raise returns
      an [outcome];
    - the module-level dict [global_env] and the standard output are the
      two fields of [state], threaded through [evaluate] and [run_file];
      a raise keeps whatever was written before it;
    - the host is CPython 3.11 on a 64-bit platform: [str(z)] of an [int]
      of more than 4300 digits raises [ValueError], and a repetition count
      must fit [Py_ssize_t];
    - the resources of the host are taken as unbounded: the recursion limit
      ([RecursionError] on lines nested some hundred levels deep) and the
      exhaustion of memory ([MemoryError] on very long strings) are not
      modelled. *)

From Stdlib Require Import ZArith String Ascii List Bool Lia.
From Stdlib Require Import Floats.PrimFloat Floats.SpecFloat Floats.FloatOps
  Floats.FloatAxioms.
From stdpp Require Import gmap strings.

Local Open Scope string_scope.
Local Open Scope Z_scope.

(** ** Python values *)

Inductive pyval :=
| VFloat (f : float)
| VInt (z : Z)
| VBool (b : bool)
| VStr (s : string)
| VNone.

Inductive pytype := Tfloat | Tint | Tbool | Tstr | TNoneType.

Definition type_of (v : pyval) : pytype :=
  match v with
  | VFloat _ => Tfloat
  | VInt _ => Tint
  | VBool _ => Tbool
  | VStr _ => Tstr
  | VNone => TNoneType
  end.

(** ** Token types *)

Inductive token_type :=
| INTEGER | PLUS | MINUS | MUL | DIV | LPAREN | RPAREN | EOF
| TRUE | FALSE | AND | OR | NOT
| EQ | NEQ | LT | GT | LE | GE
| STRING | IDENTIFIER | ASSIGN | PRINT.

Definition token_type_eqb (a b : token_type) : bool :=
  match a, b with
  | INTEGER, INTEGER | PLUS, PLUS | MINUS, MINUS | MUL, MUL | DIV, DIV
  | LPAREN, LPAREN | RPAREN, RPAREN | EOF, EOF
  | TRUE, TRUE | FALSE, FALSE | AND, AND | OR, OR | NOT, NOT
  | EQ, EQ | NEQ, NEQ | LT, LT | GT, GT | LE, LE | GE, GE
  | STRING, STRING | IDENTIFIER, IDENTIFIER | ASSIGN, ASSIGN
  | PRINT, PRINT => true
  | _, _ => false
  end.

(** [class Token]: a type and a value.  The value is a [float] for
    [INTEGER], the text for [STRING] and [IDENTIFIER], and is fixed by the
    type for every other token (['+'] for [PLUS], [True] for [TRUE], [None]
    for [EOF]), so only the first three carry it: [Tok] is for the twenty
    other types. *)
Inductive Token :=
| TokInteger (v : float)
| TokString (s : string)
| TokIdentifier (name : string)
| Tok (t : token_type).

Definition type (tok : Token) : token_type :=
  match tok with
  | TokInteger _ => INTEGER
  | TokString _ => STRING
  | TokIdentifier _ => IDENTIFIER
  | Tok t => t
  end.

(** ** Exceptions

    The interpreter raises [Exception(message)] with five messages; the
    host raises [ValueError] from [float(...)], [TypeError] from an
    operator applied to operands it does not support, [OverflowError]
    when an [int] does not fit a [float] or a repetition count does not
    fit, and [DigitLimit], the [ValueError] of the conversion to text of an
    [int] of more than 4300 digits.  All of them are subclasses of
    [Exception]. *)

Inductive exn :=
| InvalidCharacter
| UnterminatedString
| ValueError (text : string)
| Expected (t : token_type) (got : Token)
| InvalidAssignment (name : string)
| UnexpectedToken (t : Token)
| DivisionByZero
| TypeError (op : string) (operands : list pytype)
| OverflowError
| DigitLimit.

(** [OutOfFuel] belongs to the model only: the parser below recurses on a
    depth bound, and [parse_line_total] shows that the bound [parse_line]
    gives it is never reached. *)
Inductive outcome (A : Type) :=
| Return (a : A)
| Raise (e : exn)
| OutOfFuel.
Arguments Return {A} a.
Arguments Raise {A} e.
Arguments OutOfFuel {A}.

#[global] Instance outcome_ret : MRet outcome := fun A a => Return a.

#[global] Instance outcome_bind : MBind outcome := fun A B k m =>
  match m with
  | Return a => k a
  | Raise e => Raise e
  | OutOfFuel => OutOfFuel
  end.

(** ** Character classes ([str.isspace] and so on, code points 0..255) *)

Definition code (c : ascii) : N := N_of_ascii c.

Definition between (lo hi n : N) : bool := (N.leb lo n && N.leb n hi)%bool.

Definition isspace (c : ascii) : bool :=
  let n := code c in
  (between 9 13 n || between 28 32 n || N.eqb n 133 || N.eqb n 160)%bool.

Definition isdecimal (c : ascii) : bool := between 48 57 (code c).

Definition isdigit (c : ascii) : bool :=
  let n := code c in
  (between 48 57 n || N.eqb n 178 || N.eqb n 179 || N.eqb n 185)%bool.

Definition isalpha (c : ascii) : bool :=
  let n := code c in
  (between 65 90 n || between 97 122 n
   || N.eqb n 170 || N.eqb n 181 || N.eqb n 186
   || between 192 214 n || between 216 246 n || between 248 255 n)%bool.

Definition isnumeric (c : ascii) : bool :=
  (isdigit c || between 188 190 (code c))%bool.

Definition isalnum (c : ascii) : bool :=
  (isalpha c || isdecimal c || isdigit c || isnumeric c)%bool.

(** ** [float(text)] and the conversions between [int] and [float] *)

Definition Z2SF (z : Z) : spec_float :=
  match z with
  | Z0 => S754_zero false
  | Zpos p => S754_finite false p 0
  | Zneg p => S754_finite true p 0
  end.

(** The binary64 nearest to [n / d], ties to even ([d] is not zero). *)
Definition nearest_quotient (n d : Z) : spec_float :=
  SFdiv prec emax (Z2SF n) (Z2SF d).

(** The value of a run of ASCII digits, most significant first. *)
Fixpoint digits_value (s : string) (acc : Z) : option Z :=
  match s with
  | EmptyString => Some acc
  | String c rest =>
      if isdecimal c
      then digits_value rest (10 * acc + Z.of_N (code c) - 48)
      else None
  end.

(** Splits at the first ['.']: the text before it, and the text after it
    when there is one. *)
Fixpoint split_dot (s : string) : string * option string :=
  match s with
  | EmptyString => (EmptyString, None)
  | String c rest =>
      if Ascii.eqb c "." then (EmptyString, Some rest)
      else let '(a, b) := split_dot rest in (String c a, b)
  end.

(** [float(text)] for a text of digits and dots: digits, then optionally a
    dot and more digits, at least one digit in all; anything else is a
    [ValueError].  The result is correctly rounded and may be [inf]. *)
Definition py_float (text : string) : outcome float :=
  let '(ip, fp) := split_dot text in
  let fp := match fp with Some t => t | None => EmptyString end in
  match digits_value (String.append ip fp) 0 with
  | Some n =>
      if (String.length ip + String.length fp =? 0)%nat
      then Raise (ValueError text)
      else Return (SF2Prim (nearest_quotient n (10 ^ Z.of_nat (String.length fp))))
  | None => Raise (ValueError text)
  end.

(** [float(z)] for an [int]: correctly rounded, [OverflowError] past the
    largest finite double. *)
Definition float_of_int (z : Z) : outcome float :=
  match binary_normalize prec emax z 0 false with
  | S754_infinity _ => Raise OverflowError
  | sf => Return (SF2Prim sf)
  end.

(** [a / b] for two [int]s, [b] not zero: the correctly rounded quotient. *)
Definition int_true_divide (a b : Z) : outcome float :=
  match nearest_quotient a b with
  | S754_infinity _ => Raise OverflowError
  | sf => Return (SF2Prim sf)
  end.

(** The exact comparison of a [float] with an [int]; [None] for a NaN. *)
Definition float_cmp_int (f : float) (z : Z) : option comparison :=
  match Prim2SF f with
  | S754_nan => None
  | S754_infinity false => Some Gt
  | S754_infinity true => Some Lt
  | S754_zero _ => Some (0 ?= z)
  | S754_finite s m e =>
      let v := cond_Zopp s (Zpos m) in
      if 0 <=? e then Some (v * 2 ^ e ?= z) else Some (v ?= z * 2 ^ (- e))
  end.

(** ** The host's operators on values *)

(** The numeric reading of a value: a [bool] is the [int] 1 or 0. *)
Inductive numeric := NInt (z : Z) | NFloat (f : float).

Definition as_number (v : pyval) : option numeric :=
  match v with
  | VFloat f => Some (NFloat f)
  | VInt z => Some (NInt z)
  | VBool b => Some (NInt (Z.b2z b))
  | _ => None
  end.

Definition as_int (v : pyval) : option Z :=
  match v with
  | VInt z => Some z
  | VBool b => Some (Z.b2z b)
  | _ => None
  end.

Definition to_float (n : numeric) : outcome float :=
  match n with
  | NInt z => float_of_int z
  | NFloat f => Return f
  end.

(** Two [int]s give an [int]; otherwise both operands become [float]s. *)
Definition arith (iop : Z -> Z -> Z) (fop : float -> float -> float)
    (a b : numeric) : outcome pyval :=
  match a, b with
  | NInt x, NInt y => Return (VInt (iop x y))
  | _, _ => x ← to_float a; y ← to_float b; Return (VFloat (fop x y))
  end.

Definition unsupported (op : string) (lval rval : pyval) : outcome pyval :=
  Raise (TypeError op [type_of lval; type_of rval]).

(** [lval + rval] *)
Definition py_add (lval rval : pyval) : outcome pyval :=
  match lval, rval with
  | VStr a, VStr b => Return (VStr (String.append a b))
  | _, _ =>
      match as_number lval, as_number rval with
      | Some a, Some b => arith Z.add PrimFloat.add a b
      | _, _ => unsupported "+" lval rval
      end
  end.

(** [lval - rval] *)
Definition py_sub (lval rval : pyval) : outcome pyval :=
  match as_number lval, as_number rval with
  | Some a, Some b => arith Z.sub PrimFloat.sub a b
  | _, _ => unsupported "-" lval rval
  end.

(** [n] copies of [s], none when [n] is not positive. *)
Definition repeat_str (s : string) (n : Z) : string :=
  Nat.iter (Z.to_nat n) (String.append s) EmptyString.

(** [sys.maxsize], the largest [Py_ssize_t]. *)
Definition maxsize : Z := 2 ^ 63 - 1.

(** [s * n]: the count must fit [Py_ssize_t], and so must the length of
    the result. *)
Definition py_repeat (s : string) (n : Z) : outcome pyval :=
  if ((n <? - maxsize - 1) || (maxsize <? n))%bool then Raise OverflowError
  else if n <=? 0 then Return (VStr EmptyString)
  else if maxsize / n <? Z.of_nat (String.length s) then Raise OverflowError
  else Return (VStr (repeat_str s n)).

(** [lval * rval] *)
Definition py_mul (lval rval : pyval) : outcome pyval :=
  match lval, rval with
  | VStr s, (VInt _ | VBool _) =>
      match as_int rval with
      | Some n => py_repeat s n
      | None => unsupported "*" lval rval
      end
  | (VInt _ | VBool _), VStr s =>
      match as_int lval with
      | Some n => py_repeat s n
      | None => unsupported "*" lval rval
      end
  | _, _ =>
      match as_number lval, as_number rval with
      | Some a, Some b => arith Z.mul PrimFloat.mul a b
      | _, _ => unsupported "*" lval rval
      end
  end.

(** [lval / rval], for an [rval] that is not zero. *)
Definition py_truediv (lval rval : pyval) : outcome pyval :=
  match as_number lval, as_number rval with
  | Some (NInt x), Some (NInt y) => f ← int_true_divide x y; Return (VFloat f)
  | Some a, Some b => x ← to_float a; y ← to_float b; Return (VFloat (x / y)%float)
  | _, _ => unsupported "/" lval rval
  end.

Definition cmp_is (c : option comparison) (allowed : list comparison) : bool :=
  match c with
  | Some Lt => existsb (fun a => match a with Lt => true | _ => false end) allowed
  | Some Eq => existsb (fun a => match a with Eq => true | _ => false end) allowed
  | Some Gt => existsb (fun a => match a with Gt => true | _ => false end) allowed
  | None => false
  end.

Definition num_eqb (a b : numeric) : bool :=
  match a, b with
  | NInt x, NInt y => Z.eqb x y
  | NFloat x, NFloat y => PrimFloat.eqb x y
  | NFloat x, NInt y => cmp_is (float_cmp_int x y) [Eq]
  | NInt x, NFloat y => cmp_is (float_cmp_int y x) [Eq]
  end.

Definition num_ltb (a b : numeric) : bool :=
  match a, b with
  | NInt x, NInt y => Z.ltb x y
  | NFloat x, NFloat y => PrimFloat.ltb x y
  | NFloat x, NInt y => cmp_is (float_cmp_int x y) [Lt]
  | NInt x, NFloat y => cmp_is (float_cmp_int y x) [Gt]
  end.

Definition num_leb (a b : numeric) : bool :=
  match a, b with
  | NInt x, NInt y => Z.leb x y
  | NFloat x, NFloat y => PrimFloat.leb x y
  | NFloat x, NInt y => cmp_is (float_cmp_int x y) [Lt; Eq]
  | NInt x, NFloat y => cmp_is (float_cmp_int y x) [Gt; Eq]
  end.

(** [lval == rval] *)
Definition py_eq (lval rval : pyval) : bool :=
  match as_number lval, as_number rval with
  | Some a, Some b => num_eqb a b
  | _, _ =>
      match lval, rval with
      | VStr a, VStr b => String.eqb a b
      | VNone, VNone => true
      | _, _ => false
      end
  end.

(** An ordering operator: numbers with numbers, strings with strings. *)
Definition py_order (op : string) (num : numeric -> numeric -> bool)
    (str : string -> string -> bool) (lval rval : pyval) : outcome pyval :=
  match as_number lval, as_number rval with
  | Some a, Some b => Return (VBool (num a b))
  | _, _ =>
      match lval, rval with
      | VStr a, VStr b => Return (VBool (str a b))
      | _, _ => unsupported op lval rval
      end
  end.

Definition py_lt := py_order "<" num_ltb String.ltb.
Definition py_gt := py_order ">" (fun a b => num_ltb b a) (fun a b => String.ltb b a).
Definition py_le := py_order "<=" num_leb String.leb.
Definition py_ge := py_order ">=" (fun a b => num_leb b a) (fun a b => String.leb b a).

(** [bool(v)] *)
Definition truthy (v : pyval) : bool :=
  match v with
  | VFloat f => negb (PrimFloat.eqb f 0)
  | VInt z => negb (Z.eqb z 0)
  | VBool b => b
  | VStr s => negb (String.eqb s EmptyString)
  | VNone => false
  end.

(** [-v] *)
Definition py_neg (v : pyval) : outcome pyval :=
  match v with
  | VFloat f => Return (VFloat (- f)%float)
  | VInt z => Return (VInt (- z))
  | VBool b => Return (VInt (- Z.b2z b))
  | _ => Raise (TypeError "neg" [type_of v])
  end.

(** ** Lexer

    The lexer's fields [text], [pos] and [current_char] are represented by
    the text that is left, [text[pos:]]: [current_char] is its first
    character, or [None] when it is empty, and [advance] drops it. *)

Definition dquote : ascii := Eval cbv in ascii_of_nat 34.

Fixpoint take_while (f : ascii -> bool) (text : string) : string * string :=
  match text with
  | EmptyString => (EmptyString, EmptyString)
  | String c rest =>
      if f c
      then let '(result, text') := take_while f rest in (String c result, text')
      else (EmptyString, text)
  end.

Fixpoint skip_whitespace (text : string) : string :=
  match text with
  | EmptyString => EmptyString
  | String c rest => if isspace c then skip_whitespace rest else text
  end.

Definition number (text : string) : outcome (Token * string) :=
  let '(result, text') :=
    take_while (fun c => (isdigit c || Ascii.eqb c ".")%bool) text in
  f ← py_float result;
  Return (TokInteger f, text').

Definition identifier (text : string) : outcome (Token * string) :=
  let '(result, text') := take_while isalnum text in
  if String.eqb result "true" then Return (Tok TRUE, text')
  else if String.eqb result "false" then Return (Tok FALSE, text')
  else if String.eqb result "and" then Return (Tok AND, text')
  else if String.eqb result "or" then Return (Tok OR, text')
  else if String.eqb result "print" then Return (Tok PRINT, text')
  else Return (TokIdentifier result, text').

(** Called on the opening quote. *)
Definition string_ (text : string) : outcome (Token * string) :=
  let text := match text with String _ rest => rest | EmptyString => EmptyString end in
  let '(result, text') := take_while (fun c => negb (Ascii.eqb c dquote)) text in
  match text' with
  | String _ text'' => Return (TokString result, text'')
  | EmptyString => Raise UnterminatedString
  end.

(** One or two characters: [c] then [=] is [two], [c] alone is [one]. *)
Definition one_or_two (one two : token_type) (rest : string)
  : outcome (Token * string) :=
  match rest with
  | String c rest' =>
      if Ascii.eqb c "=" then Return (Tok two, rest') else Return (Tok one, rest)
  | EmptyString => Return (Tok one, rest)
  end.

Fixpoint get_next_token (text : string) : outcome (Token * string) :=
  match text with
  | EmptyString => Return (Tok EOF, EmptyString)
  | String c rest =>
      if isspace c then get_next_token rest
      else if isdigit c then number text
      else if isalpha c then identifier text
      else if Ascii.eqb c dquote then string_ text
      else if Ascii.eqb c "=" then one_or_two ASSIGN EQ rest
      else if Ascii.eqb c "!" then one_or_two NOT NEQ rest
      else if Ascii.eqb c "<" then one_or_two LT LE rest
      else if Ascii.eqb c ">" then one_or_two GT GE rest
      else if Ascii.eqb c "+" then Return (Tok PLUS, rest)
      else if Ascii.eqb c "-" then Return (Tok MINUS, rest)
      else if Ascii.eqb c "*" then Return (Tok MUL, rest)
      else if Ascii.eqb c "/" then Return (Tok DIV, rest)
      else if Ascii.eqb c "(" then Return (Tok LPAREN, rest)
      else if Ascii.eqb c ")" then Return (Tok RPAREN, rest)
      else Raise InvalidCharacter
  end.

(** ** Syntax trees

    The parser builds tuples tagged by a string in their first slot, and
    bare Python values for the leaves.  A leaf is a [float], a [bool] or a
    [str]; a [str] leaf is what both a string literal and an identifier
    become. *)

Inductive binop := Add | Sub | Mul | Div | Eq | Neq | Lt | Gt | Le | Ge | And | Or.

Inductive Node :=
| Leaf (v : pyval)
| Neg (a : Node)                      (* ('neg', a) *)
| Not (a : Node)                      (* ('not', a) *)
| Assign (name : string) (a : Node)   (* ('assign', name, a) *)
| Print (a : Node)                    (* ('print', a) *)
| BinOp (op : binop) (lhs rhs : Node).  (* (op, left, right) *)

(** ** Parser *)

Record Parser := mkParser { lexer : string; current_token : Token }.

(** [Parser.__init__] on [Lexer(text)]. *)
Definition Parser_init (text : string) : outcome Parser :=
  '(tok, text') ← get_next_token text;
  Return (mkParser text' tok).

Definition eat (token_type : token_type) (p : Parser) : outcome Parser :=
  if token_type_eqb (type (current_token p)) token_type
  then '(tok, text') ← get_next_token (lexer p);
       Return (mkParser text' tok)
  else Raise (Expected token_type (current_token p)).

(** Each method is a function of a depth bound and the parser; each
    [while] loop is a function of the node built so far.  Every call takes
    one unit of the bound. *)
Fixpoint expr (fuel : nat) (p : Parser) : outcome (Node * Parser) :=
  match fuel with
  | O => OutOfFuel
  | S fuel => logic_or fuel p
  end

with logic_or (fuel : nat) (p : Parser) : outcome (Node * Parser) :=
  match fuel with
  | O => OutOfFuel
  | S fuel => '(node, p) ← logic_and fuel p; logic_or_loop fuel node p
  end

with logic_or_loop (fuel : nat) (node : Node) (p : Parser) : outcome (Node * Parser) :=
  match fuel with
  | O => OutOfFuel
  | S fuel =>
      match type (current_token p) with
      | OR => p ← eat OR p; '(rhs, p) ← logic_and fuel p;
              logic_or_loop fuel (BinOp Or node rhs) p
      | _ => Return (node, p)
      end
  end

with logic_and (fuel : nat) (p : Parser) : outcome (Node * Parser) :=
  match fuel with
  | O => OutOfFuel
  | S fuel => '(node, p) ← equality fuel p; logic_and_loop fuel node p
  end

with logic_and_loop (fuel : nat) (node : Node) (p : Parser) : outcome (Node * Parser) :=
  match fuel with
  | O => OutOfFuel
  | S fuel =>
      match type (current_token p) with
      | AND => p ← eat AND p; '(rhs, p) ← equality fuel p;
               logic_and_loop fuel (BinOp And node rhs) p
      | _ => Return (node, p)
      end
  end

with equality (fuel : nat) (p : Parser) : outcome (Node * Parser) :=
  match fuel with
  | O => OutOfFuel
  | S fuel => '(node, p) ← comparison fuel p; equality_loop fuel node p
  end

with equality_loop (fuel : nat) (node : Node) (p : Parser) : outcome (Node * Parser) :=
  match fuel with
  | O => OutOfFuel
  | S fuel =>
      match type (current_token p) with
      | EQ => p ← eat EQ p; '(rhs, p) ← comparison fuel p;
              equality_loop fuel (BinOp Eq node rhs) p
      | NEQ => p ← eat NEQ p; '(rhs, p) ← comparison fuel p;
               equality_loop fuel (BinOp Neq node rhs) p
      | _ => Return (node, p)
      end
  end

with comparison (fuel : nat) (p : Parser) : outcome (Node * Parser) :=
  match fuel with
  | O => OutOfFuel
  | S fuel => '(node, p) ← additive fuel p; comparison_loop fuel node p
  end

with comparison_loop (fuel : nat) (node : Node) (p : Parser) : outcome (Node * Parser) :=
  match fuel with
  | O => OutOfFuel
  | S fuel =>
      match type (current_token p) with
      | LT => p ← eat LT p; '(rhs, p) ← additive fuel p;
              comparison_loop fuel (BinOp Lt node rhs) p
      | GT => p ← eat GT p; '(rhs, p) ← additive fuel p;
              comparison_loop fuel (BinOp Gt node rhs) p
      | LE => p ← eat LE p; '(rhs, p) ← additive fuel p;
              comparison_loop fuel (BinOp Le node rhs) p
      | GE => p ← eat GE p; '(rhs, p) ← additive fuel p;
              comparison_loop fuel (BinOp Ge node rhs) p
      | _ => Return (node, p)
      end
  end

with additive (fuel : nat) (p : Parser) : outcome (Node * Parser) :=
  match fuel with
  | O => OutOfFuel
  | S fuel => '(node, p) ← term fuel p; additive_loop fuel node p
  end

with additive_loop (fuel : nat) (node : Node) (p : Parser) : outcome (Node * Parser) :=
  match fuel with
  | O => OutOfFuel
  | S fuel =>
      match type (current_token p) with
      | PLUS => p ← eat PLUS p; '(rhs, p) ← term fuel p;
                additive_loop fuel (BinOp Add node rhs) p
      | MINUS => p ← eat MINUS p; '(rhs, p) ← term fuel p;
                 additive_loop fuel (BinOp Sub node rhs) p
      | _ => Return (node, p)
      end
  end

with term (fuel : nat) (p : Parser) : outcome (Node * Parser) :=
  match fuel with
  | O => OutOfFuel
  | S fuel => '(node, p) ← factor fuel p; term_loop fuel node p
  end

with term_loop (fuel : nat) (node : Node) (p : Parser) : outcome (Node * Parser) :=
  match fuel with
  | O => OutOfFuel
  | S fuel =>
      match type (current_token p) with
      | MUL => p ← eat MUL p; '(rhs, p) ← factor fuel p;
               term_loop fuel (BinOp Mul node rhs) p
      | DIV => p ← eat DIV p; '(rhs, p) ← factor fuel p;
               term_loop fuel (BinOp Div node rhs) p
      | _ => Return (node, p)
      end
  end

with factor (fuel : nat) (p : Parser) : outcome (Node * Parser) :=
  match fuel with
  | O => OutOfFuel
  | S fuel =>
      match current_token p with
      | Tok MINUS => p ← eat MINUS p; '(a, p) ← factor fuel p; Return (Neg a, p)
      | Tok NOT => p ← eat NOT p; '(a, p) ← factor fuel p; Return (Not a, p)
      | TokInteger v => p ← eat INTEGER p; Return (Leaf (VFloat v), p)
      | TokString s => p ← eat STRING p; Return (Leaf (VStr s), p)
      | Tok TRUE => p ← eat TRUE p; Return (Leaf (VBool true), p)
      | Tok FALSE => p ← eat FALSE p; Return (Leaf (VBool false), p)
      | TokIdentifier name => p ← eat IDENTIFIER p; Return (Leaf (VStr name), p)
      | Tok LPAREN => p ← eat LPAREN p; '(node, p) ← expr fuel p;
                      p ← eat RPAREN p; Return (node, p)
      | token => Raise (UnexpectedToken token)
      end
  end.

Definition parse (fuel : nat) (p : Parser) : outcome (Node * Parser) :=
  match current_token p with
  | Tok PRINT => p ← eat PRINT p; '(e, p) ← expr fuel p; Return (Print e, p)
  | TokIdentifier name =>
      p ← eat IDENTIFIER p;
      match type (current_token p) with
      | ASSIGN => p ← eat ASSIGN p; '(value, p) ← expr fuel p;
                  Return (Assign name value, p)
      | _ => Raise (InvalidAssignment name)
      end
  | _ => expr fuel p
  end.

(** A depth bound that no line reaches ([parse_line_total]). *)
Definition fuel_of (text : string) : nat := 16 * (String.length text + 2).

(** What [run_file] does to get a tree from a line: [Lexer(line)],
    [Parser(lexer)], [parser.parse()].  The parser is returned too, to show
    where it stopped. *)
Definition parse_line (line : string) : outcome (Node * Parser) :=
  p ← Parser_init line; parse (fuel_of line) p.

(** ** Evaluator *)

(** [sys.int_info.default_max_str_digits] *)
Definition max_str_digits : Z := 4300.

(** [str(v)], which [print] and the f-strings call, raises for an [int] of
    more than [max_str_digits] digits and for nothing else. *)
Definition str_raises (v : pyval) : bool :=
  match v with
  | VInt z => 10 ^ max_str_digits <=? Z.abs z
  | _ => false
  end.

(** What the run writes to standard output:
    - [Printed val] is [print(val)];
    - [Echo line result] is [print(f'{line} = {result}')], the result
      between double quotes when it is a [str];
    - [ErrorLine line e] is [print(f'Error in line "{line}": {e}')]. *)
Inductive output :=
| Printed (val : pyval)
| Echo (line : string) (result : pyval)
| ErrorLine (line : string) (e : exn).

Record state := mkState {
  global_env : gmap string pyval;
  stdout : list output
}.

Definition set_env (name : string) (v : pyval) (st : state) : state :=
  mkState (<[name := v]> (global_env st)) (stdout st).

Definition write (o : output) (st : state) : state :=
  mkState (global_env st) (stdout st ++ [o]).

(** The operator dispatch of [evaluate], after both operands. *)
Definition binary (op : binop) (lval rval : pyval) : outcome pyval :=
  match op with
  | Add => py_add lval rval
  | Sub => py_sub lval rval
  | Mul => py_mul lval rval
  | Div => if py_eq rval (VInt 0) then Raise DivisionByZero
           else py_truediv lval rval
  | Eq => Return (VBool (py_eq lval rval))
  | Neq => Return (VBool (negb (py_eq lval rval)))
  | Lt => py_lt lval rval
  | Gt => py_gt lval rval
  | Le => py_le lval rval
  | Ge => py_ge lval rval
  | And => Return (if truthy lval then rval else lval)
  | Or => Return (if truthy lval then lval else rval)
  end.

(** [evaluate(node)]: the result or the exception, and the state it
    leaves.  A statement returns [None]. *)
Fixpoint evaluate (node : Node) (st : state) : outcome pyval * state :=
  match node with
  | Neg a =>
      let '(r, st) := evaluate a st in (v ← r; py_neg v, st)
  | Not a =>
      let '(r, st) := evaluate a st in (v ← r; Return (VBool (negb (truthy v))), st)
  | Assign name expr =>
      match evaluate expr st with
      | (Return v, st) => (Return VNone, set_env name v st)
      | failed => failed
      end
  | Print a =>
      match evaluate a st with
      | (Return val, st) =>
          if str_raises val then (Raise DigitLimit, st)
          else (Return VNone, write (Printed val) st)
      | failed => failed
      end
  | BinOp op lhs rhs =>
      match evaluate lhs st with
      | (Return lval, st) =>
          match evaluate rhs st with
          | (Return rval, st) => (binary op lval rval, st)
          | failed => failed
          end
      | failed => failed
      end
  | Leaf (VStr s) =>
      match global_env st !! s with
      | Some v => (Return v, st)
      | None => (Return (VStr s), st)
      end
  | Leaf v => (Return v, st)
  end.

(** ** Line runner *)

Definition lstrip (s : string) : string := skip_whitespace s.

Fixpoint rstrip (s : string) : string :=
  match s with
  | EmptyString => EmptyString
  | String c rest =>
      match rstrip rest with
      | EmptyString => if isspace c then EmptyString else String c EmptyString
      | rest' => String c rest'
      end
  end.

Definition strip (s : string) : string := rstrip (lstrip s).

(** The body of the [try]: lex and parse the line, evaluate the tree. *)
Definition execute (line : string) (st : state) : outcome pyval * state :=
  match parse_line line with
  | Return (tree, _) => evaluate tree st
  | Raise e => (Raise e, st)
  | OutOfFuel => (OutOfFuel, st)
  end.

(** The body of the [for] loop of [run_file], for one line of the file. *)
Definition run_line (line : string) (st : state) : state :=
  let line := strip line in
  match line with
  | EmptyString => st
  | _ =>
      match execute line st with
      | (Return VNone, st) => st
      | (Return result, st) =>
          if str_raises result then write (ErrorLine line DigitLimit) st
          else write (Echo line result) st
      | (Raise e, st) => write (ErrorLine line e) st
      | (OutOfFuel, st) => st
      end
  end.

(** [run_file] on the lines of the file, from the state before it. *)
Definition run_file (lines : list string) (st : state) : state :=
  fold_left (fun st line => run_line line st) lines st.

Definition initial : state := mkState ∅ [].

(** ** Predicates and measures of the properties *)

Definition is_eof (tok : Token) : bool := token_type_eqb (type tok) EOF.

(** What is left to read: the text, and the current token unless it is
    [EOF]. *)
Definition measure (p : Parser) : nat :=
  String.length (lexer p) + (if is_eof (current_token p) then 0 else 1).

(** The trees of [expr]: no statement inside. *)
Fixpoint is_expr (n : Node) : bool :=
  match n with
  | Leaf _ => true
  | Neg a | Not a => is_expr a
  | BinOp _ lhs rhs => is_expr lhs && is_expr rhs
  | Assign _ _ | Print _ => false
  end.

Definition lexer_error (e : exn) : bool :=
  match e with
  | InvalidCharacter | UnterminatedString | ValueError _ => true
  | _ => false
  end.

(** The exceptions of [expr]: the lexer's, a token that cannot start a
    factor, a closing parenthesis that is missing. *)
Definition expr_error (e : exn) : bool :=
  match e with
  | UnexpectedToken _ | Expected RPAREN _ => true
  | _ => lexer_error e
  end.

(** What one parsing function does at one depth bound: with [16 * measure
    + o] units it does not run out; what it returns is an expression and
    leaves no more to read than before; what it raises is an [expr_error]. *)
Definition sound (o fuel : nat) (p : Parser) (r : outcome (Node * Parser)) : Prop :=
  ((16 * measure p + o <= fuel)%nat -> r <> OutOfFuel) /\
  (forall n p', r = Return (n, p') ->
     (measure p' <= measure p)%nat /\ is_expr n = true) /\
  (forall e, r = Raise e -> expr_error e = true).

(** The trees of [parse]: a statement around an expression, or an
    expression. *)
Definition is_stmt (n : Node) : bool :=
  match n with
  | Print a | Assign _ a => is_expr a
  | _ => is_expr n
  end.

Definition parse_error (e : exn) : bool :=
  match e with
  | InvalidAssignment _ => true
  | _ => expr_error e
  end.

Definition is_binary_operator (t : token_type) : bool :=
  match t with
  | OR | AND | EQ | NEQ | LT | GT | LE | GE | PLUS | MINUS | MUL | DIV => true
  | _ => false
  end.

(** [s] between double quotes, as it is written in a script. *)
Definition quoted (s : string) : string :=
  String dquote (String.append s (String dquote EmptyString)).

(** Every character of [s] satisfies [f]. *)
Fixpoint all_chars (f : ascii -> bool) (s : string) : bool :=
  match s with
  | EmptyString => true
  | String c rest => f c && all_chars f rest
  end.

(** [s] is empty or begins with a character that fails [f]. *)
Definition stops (f : ascii -> bool) (s : string) : bool :=
  match s with
  | EmptyString => true
  | String c _ => negb (f c)
  end.

(** The words [identifier] turns into a token of their own. *)
Definition keyword (s : string) : option token_type :=
  if String.eqb s "true" then Some TRUE
  else if String.eqb s "false" then Some FALSE
  else if String.eqb s "and" then Some AND
  else if String.eqb s "or" then Some OR
  else if String.eqb s "print" then Some PRINT
  else None.

(** The number of occurrences of [c] in [s]. *)
Fixpoint count_char (c : ascii) (s : string) : nat :=
  match s with
  | EmptyString => O
  | String c' rest => ((if Ascii.eqb c' c then 1 else 0) + count_char c rest)%nat
  end.

Definition not_dquote (c : ascii) : bool := negb (Ascii.eqb c dquote).

(** The leaves the parser builds: a [float], a [str] or a [bool]. *)
Fixpoint literal_leaves (n : Node) : bool :=
  match n with
  | Leaf (VFloat _ | VStr _ | VBool _) => true
  | Leaf (VInt _ | VNone) => false
  | Neg a | Not a | Print a | Assign _ a => literal_leaves a
  | BinOp _ lhs rhs => literal_leaves lhs && literal_leaves rhs
  end.

(** No variable holds [None]. *)
Definition no_None (st : state) : Prop :=
  forall name v, global_env st !! name = Some v -> v <> VNone.

(** [s] is empty or ends with a character that is not white space. *)
Fixpoint ends_black (s : string) : bool :=
  match s with
  | EmptyString => true
  | String c EmptyString => negb (isspace c)
  | String _ rest => ends_black rest
  end.

(** The parser [p] of a line, seen at the same point of that line followed
    by more text, [sfx], whose first token is [tend] with [rest] after it:
    the same current token with [sfx] still to read, or, where [p] is at
    the end of its line, the token [tend]. *)
Definition extend (sfx : string) (tend : Token) (rest : string) (p : Parser)
  : Parser :=
  if is_eof (current_token p) then mkParser rest tend
  else mkParser (String.append (lexer p) sfx) (current_token p).

(** The tags of the two operators of [additive] and of [term]. *)
Definition additive_op (t : token_type) : option binop :=
  match t with
  | PLUS => Some Add
  | MINUS => Some Sub
  | _ => None
  end.

Definition term_op (t : token_type) : option binop :=
  match t with
  | MUL => Some Mul
  | DIV => Some Div
  | _ => None
  end.

(** * Properties *)

(** ** The lexer consumes what it returns *)

Lemma append_cons (c : ascii) (a b : string) :
  String.append (String c a) b = String c (String.append a b).
Proof. reflexivity. Qed.

Lemma length_append a b :
  String.length (String.append a b) = (String.length a + String.length b)%nat.
Proof.
  induction a as [|c a IH]; [reflexivity|].
  rewrite append_cons. cbn [String.length]. rewrite IH. reflexivity.
Qed.

Lemma take_while_length f text result text' :
  take_while f text = (result, text') ->
  (String.length text' <= String.length text)%nat.
Proof.
  revert result text'. induction text as [|c rest IH]; intros result text' H; simpl in H.
  - inversion H. simpl. lia.
  - destruct (f c).
    + destruct (take_while f rest) as [a b] eqn:E. inversion H; subst.
      specialize (IH _ _ eq_refl). simpl. lia.
    + inversion H; subst. simpl. lia.
Qed.

Lemma take_while_first f c rest result text' :
  f c = true ->
  take_while f (String c rest) = (result, text') ->
  (String.length text' < String.length (String c rest))%nat.
Proof.
  intros Hc H. simpl in H. rewrite Hc in H.
  destruct (take_while f rest) as [a b] eqn:E. inversion H; subst.
  apply take_while_length in E. simpl. lia.
Qed.

Lemma isalpha_isalnum c : isalpha c = true -> isalnum c = true.
Proof. intros H. unfold isalnum. rewrite H. reflexivity. Qed.

(** Skipping one white character at a time, as [get_next_token] is written
    here, is the [skip_whitespace] loop followed by [continue]. *)
Lemma get_next_token_skip_whitespace text :
  get_next_token text = get_next_token (skip_whitespace text).
Proof.
  induction text as [|c rest IH]; [reflexivity|].
  cbn [get_next_token skip_whitespace].
  destruct (isspace c) eqn:E; [exact IH|].
  cbn [get_next_token]. rewrite E. reflexivity.
Qed.

(** A token that is not [EOF] takes at least one character. *)
Lemma get_next_token_length text tok text' :
  get_next_token text = Return (tok, text') ->
  (String.length text' + (if is_eof tok then 0 else 1) <= String.length text)%nat.
Proof.
  revert tok text'. induction text as [|c rest IH]; intros tok text' H.
  - simpl in H. inversion H; subst. simpl. lia.
  - cbn [get_next_token] in H.
    destruct (isspace c). { apply IH in H. simpl. lia. }
    destruct (isdigit c) eqn:Hd.
    { unfold number in H.
      destruct (take_while _ (String c rest)) as [result t'] eqn:E.
      apply take_while_first in E; [|rewrite Hd; reflexivity].
      destruct (py_float result); inversion H; subst. simpl in *. lia. }
    destruct (isalpha c) eqn:Ha.
    { unfold identifier in H.
      destruct (take_while _ (String c rest)) as [result t'] eqn:E.
      apply take_while_first in E; [|apply isalpha_isalnum; exact Ha].
      repeat match type of H with
             | (if ?b then _ else _) = _ => destruct b
             end; inversion H; subst; simpl in *; lia. }
    destruct (Ascii.eqb c dquote).
    { unfold string_ in H.
      destruct (take_while _ rest) as [result t'] eqn:E.
      apply take_while_length in E.
      destruct t' as [|c' t'']; inversion H; subst. simpl in *. lia. }
    repeat match type of H with
           | (if ?b then _ else _) = _ => destruct b
           end;
      try (unfold one_or_two in H;
           destruct rest as [|c' rest']; [|destruct (Ascii.eqb c' "=")]);
      inversion H; subst; simpl; lia.
Qed.

Lemma get_next_token_fuel text : get_next_token text <> OutOfFuel.
Proof.
  induction text as [|c rest IH]; [discriminate|].
  cbn [get_next_token].
  destruct (isspace c); [exact IH|].
  destruct (isdigit c).
  { unfold number. destruct (take_while _ _) as [result t'].
    destruct (py_float result) eqn:E; try discriminate.
    unfold py_float in E. destruct (split_dot result) as [ip fp].
    destruct (digits_value _ _); [destruct (_ =? _)%nat|]; discriminate. }
  destruct (isalpha c).
  { unfold identifier. destruct (take_while _ _) as [result t'].
    repeat match goal with |- (if ?b then _ else _) <> _ => destruct b end;
      discriminate. }
  destruct (Ascii.eqb c dquote).
  { unfold string_. destruct (take_while _ _) as [result t'].
    destruct t'; discriminate. }
  repeat match goal with |- (if ?b then _ else _) <> _ => destruct b end;
    try (unfold one_or_two;
         destruct rest as [|c' rest']; [|destruct (Ascii.eqb c' "=")]);
    discriminate.
Qed.

(** ** The parser: termination, what it returns, what it raises *)

Lemma token_type_eqb_eq a b : token_type_eqb a b = true <-> a = b.
Proof. split; [destruct a, b; simpl; congruence | intros ->; destruct b; reflexivity]. Qed.

Lemma get_next_token_error text e :
  get_next_token text = Raise e -> lexer_error e = true.
Proof.
  induction text as [|c rest IH]; [discriminate|].
  cbn [get_next_token].
  destruct (isspace c); [exact IH|].
  destruct (isdigit c).
  { unfold number. destruct (take_while _ _) as [result t'].
    unfold py_float. destruct (split_dot result) as [ip fp].
    destruct (digits_value _ _); [destruct (_ =? _)%nat|];
      simpl; intros [= <-]; reflexivity. }
  destruct (isalpha c).
  { unfold identifier. destruct (take_while _ _) as [result t'].
    repeat match goal with |- (if ?b then _ else _) = _ -> _ => destruct b end;
      discriminate. }
  destruct (Ascii.eqb c dquote).
  { unfold string_. destruct (take_while _ _) as [result t'].
    destruct t'; [intros [= <-]; reflexivity | discriminate]. }
  repeat match goal with |- (if ?b then _ else _) = _ -> _ => destruct b end;
    try (unfold one_or_two;
         destruct rest as [|c' rest']; [|destruct (Ascii.eqb c' "=")]);
    first [discriminate | intros [= <-]; reflexivity].
Qed.

Lemma eat_Return tt p p' :
  eat tt p = Return p' -> tt <> EOF -> (measure p' < measure p)%nat.
Proof.
  unfold eat. intros H Htt.
  destruct (token_type_eqb _ tt) eqn:E; [|discriminate].
  apply token_type_eqb_eq in E.
  destruct (get_next_token (lexer p)) as [[tok text']| |] eqn:G; try discriminate.
  simpl in H. inversion H; subst p'. apply get_next_token_length in G.
  unfold measure, is_eof at 2. simpl.
  destruct (token_type_eqb (type (current_token p)) EOF) eqn:E'.
  - apply token_type_eqb_eq in E'. congruence.
  - lia.
Qed.

Lemma eat_Raise tt p e :
  eat tt p = Raise e ->
  type (current_token p) = tt \/ tt = RPAREN ->
  expr_error e = true.
Proof.
  unfold eat. intros H Htt.
  destruct (token_type_eqb _ tt) eqn:E.
  - destruct (get_next_token (lexer p)) as [[tok text']| |] eqn:G; try discriminate.
    simpl in H. inversion H; subst. apply get_next_token_error in G.
    destruct e; simpl in *; congruence.
  - destruct Htt as [Htt| ->].
    + apply token_type_eqb_eq in Htt. congruence.
    + inversion H. reflexivity.
Qed.

Lemma eat_fuel tt p : eat tt p <> OutOfFuel.
Proof.
  unfold eat. destruct (token_type_eqb _ tt); [|discriminate].
  destruct (get_next_token (lexer p)) as [[tok text']| |] eqn:G; try discriminate.
  exfalso. exact (get_next_token_fuel _ G).
Qed.

Lemma sound_call o o' fuel p q r :
  sound o' fuel q r ->
  (measure q <= measure p)%nat ->
  ((16 * measure p + o <= S fuel)%nat -> (16 * measure q + o' <= fuel)%nat) ->
  sound o (S fuel) p r.
Proof.
  intros (Hf & Hr & He) Hm Hb. split; [|split].
  - intros H. apply Hf, Hb, H.
  - intros n p' H. destruct (Hr _ _ H). split; [lia | assumption].
  - exact He.
Qed.

Lemma sound_Return o fuel p n p' :
  (measure p' <= measure p)%nat -> is_expr n = true ->
  sound o fuel p (Return (n, p')).
Proof.
  intros Hm Hn. split; [discriminate|]. split; [|discriminate].
  intros ? ? [= <- <-]. split; assumption.
Qed.

Lemma sound_Raise o fuel p e :
  expr_error e = true -> sound o fuel p (Raise e).
Proof.
  intros He. split; [discriminate|]. split; [discriminate|].
  intros ? [= <-]. exact He.
Qed.

Lemma sound_OutOfFuel o fuel p :
  ~ (16 * measure p + o <= fuel)%nat -> sound o fuel p OutOfFuel.
Proof.
  intros H. split; [intros H'; contradiction|]. split; discriminate.
Qed.

(** One parsing step in a goal [sound _ _ _ body]: a case on the current
    token, on the outcome of [eat], or on the outcome of a call that the
    induction hypothesis [H] describes. *)
Ltac eat_step :=
  match goal with
  | |- context [match eat ?t ?p with _ => _ end] =>
      let E := fresh "E" in
      destruct (eat t p) as [?p|?e|] eqn:E;
      [ apply eat_Return in E; [|discriminate]
      | apply eat_Raise in E;
        [| first [ left; solve [ reflexivity | eassumption
                              | match goal with H : current_token _ = _ |- _ =>
                                  rewrite H; reflexivity end ]
                 | right; reflexivity ] ]
      | exfalso; exact (eat_fuel _ _ E) ]
  end.

Ltac call_step f :=
  match goal with
  | H : forall p, sound _ _ p (f _ p)
    |- context [match f ?fuel ?q with _ => _ end] =>
      let Hf := fresh "Hf" in let Hr := fresh "Hr" in let He := fresh "He" in
      let E := fresh "E" in
      destruct (H q) as (Hf & Hr & He);
      destruct (f fuel q) as [[?n ?p]|?e|] eqn:E;
      [ destruct (Hr _ _ eq_refl); clear Hf Hr He
      | pose proof (He _ eq_refl); clear Hf Hr He
      | clear Hr He ]
  end.

Ltac sound_finish :=
  first
    [ apply sound_Return; [lia | simpl; repeat (apply andb_true_intro; split); assumption || reflexivity]
    | apply sound_Raise; solve [assumption | reflexivity]
    | apply sound_OutOfFuel;
      match goal with Hf : _ -> OutOfFuel <> OutOfFuel |- _ =>
        intros Hb; apply Hf; [lia | reflexivity] end
    | match goal with
      | H : forall node p, is_expr node = true -> sound _ _ p (?f _ node p)
        |- sound _ _ _ (?f _ ?nd ?q) =>
          eapply sound_call;
          [ apply H; simpl; repeat (apply andb_true_intro; split); assumption
          | lia | lia ]
      | H : forall p, sound _ _ p (?f _ p) |- sound _ _ _ (?f _ ?q) =>
          eapply sound_call; [ apply H | lia | lia ]
      end ].

Ltac unfold_parser :=
  cbn [expr logic_or logic_or_loop logic_and logic_and_loop equality
       equality_loop comparison comparison_loop additive additive_loop
       term term_loop factor]; unfold mbind, outcome_bind.

Lemma parser_sound fuel :
  (forall p, sound 1 fuel p (factor fuel p)) /\
  (forall node p, is_expr node = true -> sound 2 fuel p (term_loop fuel node p)) /\
  (forall p, sound 3 fuel p (term fuel p)) /\
  (forall node p, is_expr node = true -> sound 4 fuel p (additive_loop fuel node p)) /\
  (forall p, sound 5 fuel p (additive fuel p)) /\
  (forall node p, is_expr node = true -> sound 6 fuel p (comparison_loop fuel node p)) /\
  (forall p, sound 7 fuel p (comparison fuel p)) /\
  (forall node p, is_expr node = true -> sound 8 fuel p (equality_loop fuel node p)) /\
  (forall p, sound 9 fuel p (equality fuel p)) /\
  (forall node p, is_expr node = true -> sound 10 fuel p (logic_and_loop fuel node p)) /\
  (forall p, sound 11 fuel p (logic_and fuel p)) /\
  (forall node p, is_expr node = true -> sound 12 fuel p (logic_or_loop fuel node p)) /\
  (forall p, sound 13 fuel p (logic_or fuel p)) /\
  (forall p, sound 14 fuel p (expr fuel p)).
Proof.
  induction fuel as [|fuel IH].
  - repeat apply conj; intros; apply sound_OutOfFuel; lia.
  - destruct IH as (IHfactor & IHterm_loop & IHterm & IHadditive_loop
      & IHadditive & IHcomparison_loop & IHcomparison & IHequality_loop
      & IHequality & IHlogic_and_loop & IHlogic_and & IHlogic_or_loop
      & IHlogic_or & IHexpr).
    repeat apply conj; intros; unfold_parser.
    + destruct (current_token p) as [v|s|name|[]] eqn:Hc;
        repeat first [eat_step | call_step factor | call_step expr];
        sound_finish.
    + destruct (type (current_token p)) eqn:Ht;
        repeat first [eat_step | call_step factor]; sound_finish.
    + call_step factor; sound_finish.
    + destruct (type (current_token p)) eqn:Ht;
        repeat first [eat_step | call_step term]; sound_finish.
    + call_step term; sound_finish.
    + destruct (type (current_token p)) eqn:Ht;
        repeat first [eat_step | call_step additive]; sound_finish.
    + call_step additive; sound_finish.
    + destruct (type (current_token p)) eqn:Ht;
        repeat first [eat_step | call_step comparison]; sound_finish.
    + call_step comparison; sound_finish.
    + destruct (type (current_token p)) eqn:Ht;
        repeat first [eat_step | call_step equality]; sound_finish.
    + call_step equality; sound_finish.
    + destruct (type (current_token p)) eqn:Ht;
        repeat first [eat_step | call_step logic_and]; sound_finish.
    + call_step logic_and; sound_finish.
    + sound_finish.
Qed.

Lemma expr_sound fuel p : sound 14 fuel p (expr fuel p).
Proof. apply parser_sound. Qed.

Lemma is_expr_is_stmt n : is_expr n = true -> is_stmt n = true.
Proof. destruct n; simpl; congruence. Qed.

Lemma expr_error_parse_error e : expr_error e = true -> parse_error e = true.
Proof. destruct e; simpl; congruence. Qed.

Lemma parse_sound fuel p :
  ((16 * measure p + 14 <= fuel)%nat -> parse fuel p <> OutOfFuel) /\
  (forall tree p', parse fuel p = Return (tree, p') -> is_stmt tree = true) /\
  (forall e, parse fuel p = Raise e -> parse_error e = true).
Proof.
  assert (Hexpr : forall q, (measure q <= measure p)%nat ->
            ((16 * measure p + 14 <= fuel)%nat -> expr fuel q <> OutOfFuel) /\
            (forall n p', expr fuel q = Return (n, p') -> is_expr n = true) /\
            (forall e, expr fuel q = Raise e -> parse_error e = true)).
  { intros q Hq. destruct (expr_sound fuel q) as (Hf & Hr & He).
    split; [|split].
    - intros H. apply Hf. lia.
    - intros n p' H. apply (Hr _ _ H).
    - intros e H. apply expr_error_parse_error, He, H. }
  unfold parse.
  destruct (current_token p) as [v|s|name|t] eqn:Hc;
    try (destruct (Hexpr p (le_n _)) as (Hf & Hr & He);
         split; [exact Hf|split; [|exact He]];
         intros tree p' H; apply is_expr_is_stmt, (Hr _ _ H)).
  - (* IDENTIFIER *)
    unfold mbind, outcome_bind.
    destruct (eat IDENTIFIER p) as [p1|e1|] eqn:E1.
    + destruct (type (current_token p1)) eqn:Ht;
        try (split; [discriminate|split; [discriminate|]];
             intros e [= <-]; reflexivity).
      apply eat_Return in E1; [|discriminate].
      destruct (eat ASSIGN p1) as [p2|e2|] eqn:E2.
      * apply eat_Return in E2; [|discriminate].
        destruct (Hexpr p2 ltac:(lia)) as (Hf & Hr & He).
        destruct (expr fuel p2) as [[value p3]|e3|] eqn:E3.
        -- split; [discriminate|split; [|discriminate]].
           intros tree p' [= <- <-]. simpl. apply (Hr _ _ eq_refl).
        -- split; [discriminate|split; [discriminate|]].
           intros e [= <-]. apply He. reflexivity.
        -- split; [exact Hf|split; discriminate].
      * apply eat_Raise in E2; [|left; exact Ht].
        split; [discriminate|split; [discriminate|]].
        intros e [= <-]. apply expr_error_parse_error, E2.
      * exfalso. exact (eat_fuel _ _ E2).
    + apply eat_Raise in E1; [|left; rewrite Hc; reflexivity].
      split; [discriminate|split; [discriminate|]].
      intros e [= <-]. apply expr_error_parse_error, E1.
    + exfalso. exact (eat_fuel _ _ E1).
  - (* PRINT, or another token *)
    destruct t;
      try (destruct (Hexpr p (le_n _)) as (Hf & Hr & He);
           split; [exact Hf|split; [|exact He]];
           intros tree p' H; apply is_expr_is_stmt, (Hr _ _ H)).
    unfold mbind, outcome_bind.
    destruct (eat PRINT p) as [p1|e1|] eqn:E1.
    + apply eat_Return in E1; [|discriminate].
      destruct (Hexpr p1 ltac:(lia)) as (Hf & Hr & He).
      destruct (expr fuel p1) as [[value p3]|e3|] eqn:E3.
      * split; [discriminate|split; [|discriminate]].
        intros tree p' [= <- <-]. simpl. apply (Hr _ _ eq_refl).
      * split; [discriminate|split; [discriminate|]].
        intros e [= <-]. apply He. reflexivity.
      * split; [exact Hf|split; discriminate].
    + apply eat_Raise in E1; [|left; rewrite Hc; reflexivity].
      split; [discriminate|split; [discriminate|]].
      intros e [= <-]. apply expr_error_parse_error, E1.
    + exfalso. exact (eat_fuel _ _ E1).
Qed.

Lemma Parser_init_measure text p :
  Parser_init text = Return p -> (measure p <= String.length text)%nat.
Proof.
  unfold Parser_init, mbind, outcome_bind.
  destruct (get_next_token text) as [[tok text']| |] eqn:G; try discriminate.
  intros [= <-]. apply get_next_token_length in G. unfold measure. simpl. lia.
Qed.

(** The bound of [parse_line] is never reached: every line either parses
    or raises. *)
Lemma parse_line_total line : parse_line line <> OutOfFuel.
Proof.
  unfold parse_line, mbind, outcome_bind.
  destruct (Parser_init line) as [p| |] eqn:E; try discriminate.
  - apply Parser_init_measure in E.
    apply (parse_sound (fuel_of line) p). unfold fuel_of. lia.
  - unfold Parser_init, mbind, outcome_bind in E.
    destruct (get_next_token line) as [[tok text']| |] eqn:G; try discriminate.
    exfalso. exact (get_next_token_fuel _ G).
Qed.

Lemma parse_line_tree line tree p :
  parse_line line = Return (tree, p) -> is_stmt tree = true.
Proof.
  unfold parse_line, mbind, outcome_bind.
  destruct (Parser_init line) as [p0| |]; try discriminate.
  apply parse_sound.
Qed.

(** ** The depth bound plays no part *)

(** One call in a goal [body fuel <> OutOfFuel -> body n = body fuel]:
    a call that ran out makes the premise false, any other is the same at
    both bounds by the induction hypothesis [H]. *)
Ltac fuel_call f :=
  match goal with
  | H : forall q, f ?fuel q <> OutOfFuel -> f ?n q = f ?fuel q
    |- context [match f ?fuel ?q with _ => _ end] =>
      let E := fresh "E" in
      destruct (f fuel q) as [[? ?]|?|] eqn:E;
      [ rewrite (H q) by (rewrite E; discriminate); rewrite E
      | rewrite (H q) by (rewrite E; discriminate); rewrite E
      | let C := fresh in intros C; exfalso; apply C; reflexivity ]
  end.

Ltac fuel_eat :=
  match goal with
  | |- context [match eat ?t ?p with _ => _ end] =>
      destruct (eat t p) as [?p|?e|]; [|reflexivity|reflexivity]
  end.

Ltac fuel_finish :=
  first
    [ reflexivity
    | match goal with
      | |- context [match eat ?t ?p with _ => _ end] =>
          destruct (eat t p) as [?p|?e|]; reflexivity
      end
    | match goal with
      | H : forall node p, ?f ?fuel node p <> OutOfFuel -> _
        |- ?f ?fuel _ _ <> OutOfFuel -> _ => apply H
      end ].

Lemma parser_fuel fuel : forall n, (fuel <= n)%nat ->
  (forall p, factor fuel p <> OutOfFuel -> factor n p = factor fuel p) /\
  (forall node p, term_loop fuel node p <> OutOfFuel ->
     term_loop n node p = term_loop fuel node p) /\
  (forall p, term fuel p <> OutOfFuel -> term n p = term fuel p) /\
  (forall node p, additive_loop fuel node p <> OutOfFuel ->
     additive_loop n node p = additive_loop fuel node p) /\
  (forall p, additive fuel p <> OutOfFuel -> additive n p = additive fuel p) /\
  (forall node p, comparison_loop fuel node p <> OutOfFuel ->
     comparison_loop n node p = comparison_loop fuel node p) /\
  (forall p, comparison fuel p <> OutOfFuel -> comparison n p = comparison fuel p) /\
  (forall node p, equality_loop fuel node p <> OutOfFuel ->
     equality_loop n node p = equality_loop fuel node p) /\
  (forall p, equality fuel p <> OutOfFuel -> equality n p = equality fuel p) /\
  (forall node p, logic_and_loop fuel node p <> OutOfFuel ->
     logic_and_loop n node p = logic_and_loop fuel node p) /\
  (forall p, logic_and fuel p <> OutOfFuel -> logic_and n p = logic_and fuel p) /\
  (forall node p, logic_or_loop fuel node p <> OutOfFuel ->
     logic_or_loop n node p = logic_or_loop fuel node p) /\
  (forall p, logic_or fuel p <> OutOfFuel -> logic_or n p = logic_or fuel p) /\
  (forall p, expr fuel p <> OutOfFuel -> expr n p = expr fuel p).
Proof.
  induction fuel as [|fuel IH]; intros n Hn.
  - repeat apply conj; intros; exfalso; auto.
  - destruct n as [|n]; [lia|].
    destruct (IH n ltac:(lia)) as (IHfactor & IHterm_loop & IHterm
      & IHadditive_loop & IHadditive & IHcomparison_loop & IHcomparison
      & IHequality_loop & IHequality & IHlogic_and_loop & IHlogic_and
      & IHlogic_or_loop & IHlogic_or & IHexpr).
    clear IH.
    repeat apply conj; intros; revert H; unfold_parser.
    + destruct (current_token p) as [v|s|name|[]] eqn:Hc;
        try reflexivity; fuel_eat;
        repeat first [fuel_call factor | fuel_call expr]; fuel_finish.
    + destruct (type (current_token p)) eqn:Ht; try reflexivity; fuel_eat;
        repeat fuel_call factor; fuel_finish.
    + repeat fuel_call factor; fuel_finish.
    + destruct (type (current_token p)) eqn:Ht; try reflexivity; fuel_eat;
        repeat fuel_call term; fuel_finish.
    + repeat fuel_call term; fuel_finish.
    + destruct (type (current_token p)) eqn:Ht; try reflexivity; fuel_eat;
        repeat fuel_call additive; fuel_finish.
    + repeat fuel_call additive; fuel_finish.
    + destruct (type (current_token p)) eqn:Ht; try reflexivity; fuel_eat;
        repeat fuel_call comparison; fuel_finish.
    + repeat fuel_call comparison; fuel_finish.
    + destruct (type (current_token p)) eqn:Ht; try reflexivity; fuel_eat;
        repeat fuel_call equality; fuel_finish.
    + repeat fuel_call equality; fuel_finish.
    + destruct (type (current_token p)) eqn:Ht; try reflexivity; fuel_eat;
        repeat fuel_call logic_and; fuel_finish.
    + repeat fuel_call logic_and; fuel_finish.
    + apply IHlogic_or.
Qed.

Lemma parse_fuel fuel n p :
  (fuel <= n)%nat -> parse fuel p <> OutOfFuel -> parse n p = parse fuel p.
Proof.
  intros Hn. destruct (parser_fuel fuel n Hn) as (_ & _ & _ & _ & _ & _ & _
    & _ & _ & _ & _ & _ & _ & Hexpr).
  unfold parse, mbind, outcome_bind.
  destruct (current_token p) as [v|s|name|t]; try apply Hexpr.
  - destruct (eat IDENTIFIER p) as [p1|e|]; [|reflexivity|reflexivity].
    destruct (type (current_token p1)); try reflexivity.
    destruct (eat ASSIGN p1) as [p2|e|]; [|reflexivity|reflexivity].
    intros H. rewrite Hexpr; [reflexivity|].
    intros E. rewrite E in H. apply H. reflexivity.
  - destruct t; try apply Hexpr.
    destruct (eat PRINT p) as [p1|e|]; [|reflexivity|reflexivity].
    intros H. rewrite Hexpr; [reflexivity|].
    intros E. rewrite E in H. apply H. reflexivity.
Qed.

(** The tree of a line does not depend on the depth bound: every bound
    from [fuel_of line] on gives what [parse_line] gives. *)
Lemma parse_line_any_bound line n :
  (fuel_of line <= n)%nat ->
  (p ← Parser_init line; parse n p) = parse_line line.
Proof.
  intros Hn. pose proof (parse_line_total line) as Ht.
  unfold parse_line, mbind, outcome_bind in *.
  destruct (Parser_init line) as [p|e|]; try reflexivity.
  apply parse_fuel; assumption.
Qed.

(** ** The evaluator on the trees of the parser *)

(** Evaluating an expression writes nothing and stores nothing. *)
Lemma evaluate_expr_state n st :
  is_expr n = true -> snd (evaluate n st) = st.
Proof.
  revert st. induction n as [v|a IH|a IH|name a IH|a IH|op lhs IHl rhs IHr];
    intros st Hn; simpl in *; try discriminate.
  - destruct v; try reflexivity. destruct (global_env st !! s); reflexivity.
  - specialize (IH st Hn). destruct (evaluate a st) as [r st']. exact IH.
  - specialize (IH st Hn). destruct (evaluate a st) as [r st']. exact IH.
  - apply andb_prop in Hn as [Hl Hr].
    specialize (IHl st Hl). destruct (evaluate lhs st) as [[lval|e|] st1];
      simpl in IHl; subst st1; try reflexivity.
    specialize (IHr st Hr). destruct (evaluate rhs st) as [[rval|e|] st2];
      simpl in IHr; subst st2; reflexivity.
Qed.

(** A statement that raises has stored and written nothing. *)
Lemma evaluate_stmt_Raise tree st e st' :
  is_stmt tree = true -> evaluate tree st = (Raise e, st') -> st' = st.
Proof.
  intros Ht H.
  assert (Hexpr : forall n, is_expr n = true -> evaluate n st = (Raise e, st') -> st' = st).
  { intros n Hn E. pose proof (evaluate_expr_state n st Hn) as Hs.
    rewrite E in Hs. exact Hs. }
  destruct tree as [v|a|a|name a|a|op lhs rhs]; try (apply (Hexpr _ Ht H)).
  - simpl in Ht, H. pose proof (evaluate_expr_state a st Ht) as Hs.
    destruct (evaluate a st) as [[v|e'|] st1]; simpl in Hs; subst st1;
      inversion H; reflexivity.
  - simpl in Ht, H. pose proof (evaluate_expr_state a st Ht) as Hs.
    destruct (evaluate a st) as [[v|e'|] st1]; simpl in Hs; subst st1;
      try destruct (str_raises v); inversion H; reflexivity.
Qed.

Lemma execute_Raise line st e st' :
  execute line st = (Raise e, st') -> st' = st.
Proof.
  unfold execute. destruct (parse_line line) as [[tree p]|e'|] eqn:E.
  - apply evaluate_stmt_Raise. apply (parse_line_tree _ _ _ E).
  - intros [= _ <-]. reflexivity.
  - discriminate.
Qed.

Lemma float_of_int_fuel z : float_of_int z <> OutOfFuel.
Proof. unfold float_of_int. destruct (binary_normalize _ _ _ _ _); discriminate. Qed.

Lemma to_float_fuel n : to_float n <> OutOfFuel.
Proof. destruct n; [apply float_of_int_fuel | discriminate]. Qed.

Lemma arith_fuel iop fop a b : arith iop fop a b <> OutOfFuel.
Proof.
  unfold arith, mbind, outcome_bind.
  destruct a, b; try discriminate;
    repeat match goal with
           | |- context [to_float ?n] =>
               let E := fresh in
               destruct (to_float n) eqn:E;
               [| | exfalso; exact (to_float_fuel _ E)]
           end; discriminate.
Qed.

Lemma py_repeat_fuel s n : py_repeat s n <> OutOfFuel.
Proof.
  unfold py_repeat.
  repeat match goal with |- (if ?b then _ else _) <> _ => destruct b end;
    discriminate.
Qed.

Lemma binary_fuel op lval rval : binary op lval rval <> OutOfFuel.
Proof.
  destruct op; simpl; try discriminate.
  - unfold py_add, unsupported.
    destruct lval, rval; cbn -[arith]; try discriminate; apply arith_fuel.
  - unfold py_sub, unsupported.
    destruct lval, rval; cbn -[arith]; try discriminate; apply arith_fuel.
  - unfold py_mul, unsupported.
    destruct lval, rval; cbn -[arith py_repeat]; try discriminate;
      first [apply arith_fuel | apply py_repeat_fuel].
  - destruct (py_eq rval (VInt 0)); [discriminate|].
    unfold py_truediv, unsupported, mbind, outcome_bind.
    destruct lval, rval; simpl; try discriminate;
      repeat match goal with
             | |- context [float_of_int ?n] =>
                 let E := fresh in
                 destruct (float_of_int n) eqn:E;
                 [| | exfalso; exact (float_of_int_fuel _ E)]
             | |- context [int_true_divide ?a ?b] =>
                 unfold int_true_divide; destruct (nearest_quotient a b)
             end; discriminate.
  - unfold py_lt, py_order, unsupported. destruct lval, rval; discriminate.
  - unfold py_gt, py_order, unsupported. destruct lval, rval; discriminate.
  - unfold py_le, py_order, unsupported. destruct lval, rval; discriminate.
  - unfold py_ge, py_order, unsupported. destruct lval, rval; discriminate.
Qed.

Lemma evaluate_fuel n st : fst (evaluate n st) <> OutOfFuel.
Proof.
  revert st. induction n as [v|a IH|a IH|name a IH|a IH|op lhs IHl rhs IHr];
    intros st; simpl.
  - destruct v; try discriminate. destruct (global_env st !! s); discriminate.
  - specialize (IH st). destruct (evaluate a st) as [[v|e|] st']; simpl in *;
      try discriminate; [destruct v; discriminate | exact IH].
  - specialize (IH st). destruct (evaluate a st) as [[v|e|] st']; simpl in *;
      try discriminate; exact IH.
  - specialize (IH st). destruct (evaluate a st) as [[v|e|] st']; simpl in *;
      try discriminate; exact IH.
  - specialize (IH st). destruct (evaluate a st) as [[v|e|] st'];
      cbn [fst] in *; try discriminate; [|exact IH].
    destruct (str_raises v); discriminate.
  - specialize (IHl st). destruct (evaluate lhs st) as [[lval|e|] st1]; simpl in *;
      try discriminate; [|exact IHl].
    specialize (IHr st1). destruct (evaluate rhs st1) as [[rval|e|] st2]; simpl in *;
      try discriminate; [apply binary_fuel | exact IHr].
Qed.

(** Every line returns or raises: the depth bound plays no part. *)
Lemma execute_total line st : fst (execute line st) <> OutOfFuel.
Proof.
  unfold execute. destruct (parse_line line) as [[tree p]|e|] eqn:E.
  - apply evaluate_fuel.
  - discriminate.
  - exfalso. exact (parse_line_total _ E).
Qed.

(** ** Lines that begin with an identifier *)




(** ** A number followed by a token that is no operator *)

(** With no binary operator at the current token, every loop returns the
    node it was given, whatever the token is. *)
Lemma loops_stop fuel node p :
  is_binary_operator (type (current_token p)) = false ->
  term_loop (S fuel) node p = Return (node, p) /\
  additive_loop (S fuel) node p = Return (node, p) /\
  comparison_loop (S fuel) node p = Return (node, p) /\
  equality_loop (S fuel) node p = Return (node, p) /\
  logic_and_loop (S fuel) node p = Return (node, p) /\
  logic_or_loop (S fuel) node p = Return (node, p).
Proof.
  intros H. simpl. destruct (type (current_token p)); try discriminate;
    repeat split; reflexivity.
Qed.


(** ** Tokens after a complete statement *)

(** A white-space character begins no number and no word, and is not the
    second character of an operator. *)
Lemma isspace_other c :
  isspace c = true ->
  (isdigit c || Ascii.eqb c ".")%bool = false /\ isalnum c = false /\
  Ascii.eqb c "=" = false.
Proof.
  destruct c as [[] [] [] [] [] [] [] []]; vm_compute; intros H;
    first [discriminate H | repeat split].
Qed.

(** A run of characters ends where it ended when more text follows it,
    unless it ran to the end of the text and the next character goes on
    with it. *)
Lemma take_while_extend f text result text' c extra :
  take_while f text = (result, text') ->
  (text' = EmptyString -> f c = false) ->
  take_while f (String.append text (String c extra))
    = (result, String.append text' (String c extra)).
Proof.
  revert result text'. induction text as [|a text IH]; intros result text' H Hc.
  - simpl in H. inversion H; subst.
    change (String.append EmptyString (String c extra)) with (String c extra).
    cbn [take_while]. rewrite Hc; reflexivity.
  - rewrite append_cons. cbn [take_while] in *. destruct (f a).
    + destruct (take_while f text) as [r t'] eqn:E. inversion H; subst.
      rewrite (IH _ _ eq_refl Hc). reflexivity.
    + inversion H; subst. rewrite append_cons. reflexivity.
Qed.

(** The lexer on a text followed by white space and more text: the same
    token, with the addition left to read; at the end of the text, the
    first token of the addition. *)
Lemma get_next_token_extend text tok text' c extra :
  isspace c = true ->
  get_next_token text = Return (tok, text') ->
  get_next_token (String.append text (String c extra))
    = if is_eof tok then get_next_token extra
      else Return (tok, String.append text' (String c extra)).
Proof.
  intros Hc. destruct (isspace_other c Hc) as (Hnum & Hword & Heq).
  revert tok text'. induction text as [|a text IH]; intros tok text' H.
  - simpl in H. inversion H; subst.
    change (String.append EmptyString (String c extra)) with (String c extra).
    cbn [get_next_token]. rewrite Hc. reflexivity.
  - rewrite append_cons. cbn [get_next_token] in *.
    destruct (isspace a). { apply IH, H. }
    rewrite <- append_cons.
    destruct (isdigit a).
    { unfold number in *.
      destruct (take_while _ (String a text)) as [result t'] eqn:E.
      rewrite (take_while_extend _ _ _ _ c extra E (fun _ => Hnum)).
      unfold mbind, outcome_bind in *.
      destruct (py_float result); inversion H; subst. reflexivity. }
    destruct (isalpha a).
    { unfold identifier in *.
      destruct (take_while _ (String a text)) as [result t'] eqn:E.
      rewrite (take_while_extend _ _ _ _ c extra E (fun _ => Hword)).
      repeat match type of H with
             | (if ?b then _ else _) = _ => destruct b
             end; inversion H; subst; reflexivity. }
    destruct (Ascii.eqb a dquote).
    { unfold string_ in *. rewrite append_cons.
      destruct (take_while _ text) as [result t'] eqn:E.
      destruct t' as [|d t'']; [discriminate|].
      rewrite (take_while_extend _ _ _ _ c extra E) by discriminate.
      rewrite append_cons. inversion H; subst. reflexivity. }
    repeat match type of H with
           | (if ?b then _ else _) = _ => destruct b
           end;
      try (destruct text as [|d text0];
           [ change (String.append EmptyString (String c extra))
               with (String c extra)
           | rewrite append_cons ];
           cbv beta iota delta [one_or_two] in *;
           [ rewrite Heq | destruct (Ascii.eqb d "=") ]);
      inversion H; subst; reflexivity.
Qed.

(** At the end of a line nothing can begin: [factor], and so every
    function that begins with it, raises. *)
Lemma factor_at_eof fuel p r :
  current_token p = Tok EOF -> factor fuel p <> Return r.
Proof.
  intros H. destruct fuel; [discriminate|]. unfold_parser. rewrite H.
  discriminate.
Qed.

Ltac at_eof fuel lemma :=
  let H := fresh in
  intros H; destruct fuel; [discriminate|]; unfold_parser;
  match goal with
  | |- context [match ?f fuel ?p with _ => _ end] =>
      let E := fresh in
      destruct (f fuel p) as [r'| |] eqn:E; try discriminate;
      exfalso; exact (lemma _ _ _ H E)
  end.

Lemma term_at_eof fuel p r :
  current_token p = Tok EOF -> term fuel p <> Return r.
Proof. at_eof fuel factor_at_eof. Qed.

Lemma additive_at_eof fuel p r :
  current_token p = Tok EOF -> additive fuel p <> Return r.
Proof. at_eof fuel term_at_eof. Qed.

Lemma comparison_at_eof fuel p r :
  current_token p = Tok EOF -> comparison fuel p <> Return r.
Proof. at_eof fuel additive_at_eof. Qed.

Lemma equality_at_eof fuel p r :
  current_token p = Tok EOF -> equality fuel p <> Return r.
Proof. at_eof fuel comparison_at_eof. Qed.

Lemma logic_and_at_eof fuel p r :
  current_token p = Tok EOF -> logic_and fuel p <> Return r.
Proof. at_eof fuel equality_at_eof. Qed.

Lemma logic_or_at_eof fuel p r :
  current_token p = Tok EOF -> logic_or fuel p <> Return r.
Proof. at_eof fuel logic_and_at_eof. Qed.

Lemma expr_at_eof fuel p r :
  current_token p = Tok EOF -> expr fuel p <> Return r.
Proof.
  intros H. destruct fuel; [discriminate|]. unfold_parser.
  apply logic_or_at_eof, H.
Qed.

Section Trailing.

(** The line goes on with the white-space character [c] and the text
    [extra], whose first token, [tend], is no binary operator. *)
Variables (c : ascii) (extra : string) (tend : Token) (rest : string).
Hypothesis Hspace : isspace c = true.
Hypothesis Hnext : get_next_token extra = Return (tend, rest).
Hypothesis Hop : is_binary_operator (type tend) = false.

Local Abbreviation ext := (extend (String c extra) tend rest).

Lemma extend_token p :
  is_eof (current_token p) = false ->
  ext p = mkParser (String.append (lexer p) (String c extra)) (current_token p).
Proof. intros H. unfold extend. rewrite H. reflexivity. Qed.

Lemma extend_type p t :
  type (current_token p) = t -> t <> EOF ->
  current_token (ext p) = current_token p.
Proof.
  intros Ht Hne. rewrite extend_token; [reflexivity|].
  unfold is_eof. rewrite Ht. destruct t; try reflexivity. congruence.
Qed.

Lemma extend_not_operator p :
  is_binary_operator (type (current_token p)) = false ->
  is_binary_operator (type (current_token (ext p))) = false.
Proof.
  intros H. unfold extend. destruct (is_eof (current_token p)); assumption.
Qed.

Lemma eat_extend t p p' :
  t <> EOF -> eat t p = Return p' -> eat t (ext p) = Return (ext p').
Proof.
  unfold eat. intros Ht H.
  destruct (token_type_eqb (type (current_token p)) t) eqn:E; [|discriminate].
  apply token_type_eqb_eq in E.
  rewrite (extend_type p t E Ht).
  rewrite extend_token
    by (unfold is_eof; rewrite E; destruct t; try reflexivity; congruence).
  cbn [lexer]. apply token_type_eqb_eq in E. rewrite E.
  unfold mbind, outcome_bind in *.
  destruct (get_next_token (lexer p)) as [[tok text']| |] eqn:G; try discriminate.
  rewrite (get_next_token_extend _ _ _ c extra Hspace G).
  inversion H; subst p'. unfold extend. cbn [current_token lexer].
  destruct (is_eof tok); [rewrite Hnext|]; reflexivity.
Qed.

(** One step in a goal [body p = Return (n, p') -> body (ext p) = Return
    (n, ext p')]: an [eat], or a call that the induction hypothesis
    describes. *)
Ltac extend_eat :=
  match goal with
  | |- context [match eat ?t ?p with _ => _ end] =>
      let E := fresh "E" in
      destruct (eat t p) as [?p|?e|] eqn:E; [|discriminate|discriminate];
      rewrite (eat_extend t p _ ltac:(discriminate) E)
  end.

Ltac extend_call f :=
  match goal with
  | H : forall p n p', f ?fuel p = Return (n, p') -> _
    |- context [match f ?fuel ?q with _ => _ end] =>
      let E := fresh "E" in
      destruct (f fuel q) as [[?n ?p]|?e|] eqn:E; [|discriminate|discriminate];
      rewrite (H _ _ _ E)
  end.

Ltac extend_finish :=
  first
    [ discriminate
    | intros [= <- <-]; reflexivity
    | match goal with
      | H : forall node p n p', ?f ?fuel node p = Return (n, p') -> _
        |- ?f ?fuel _ _ = Return _ -> _ => apply H
      end ].

(** A loop: where the current token is none of its operators it returns
    what it was given, before and after the addition; where it is one, the
    parser reads on in the same way. *)
Ltac extend_loop f :=
  match goal with
  | |- ?loop (S ?fuel) ?node ?p = Return _ -> _ =>
      destruct (is_binary_operator (type (current_token p))) eqn:Hb;
      [ unfold_parser;
        destruct (type (current_token p)) eqn:Ht; try discriminate Hb;
        rewrite (extend_type p _ Ht ltac:(discriminate)), Ht;
        try (intros [= <- <-]; reflexivity);
        repeat first [extend_eat | extend_call f]; extend_finish
      | let Hl := fresh in let Hl' := fresh in let H := fresh in
        pose proof (loops_stop fuel node p Hb) as Hl;
        pose proof (loops_stop fuel node (ext p) (extend_not_operator p Hb)) as Hl';
        intros H;
        first [ rewrite (proj1 Hl) in H; rewrite (proj1 Hl')
              | rewrite (proj1 (proj2 Hl)) in H; rewrite (proj1 (proj2 Hl'))
              | rewrite (proj1 (proj2 (proj2 Hl))) in H;
                rewrite (proj1 (proj2 (proj2 Hl')))
              | rewrite (proj1 (proj2 (proj2 (proj2 Hl)))) in H;
                rewrite (proj1 (proj2 (proj2 (proj2 Hl'))))
              | rewrite (proj1 (proj2 (proj2 (proj2 (proj2 Hl))))) in H;
                rewrite (proj1 (proj2 (proj2 (proj2 (proj2 Hl')))))
              | rewrite (proj2 (proj2 (proj2 (proj2 (proj2 Hl))))) in H;
                rewrite (proj2 (proj2 (proj2 (proj2 (proj2 Hl'))))) ];
        inversion H; subst; reflexivity ]
  end.

(** The parser does on the longer line what it does on the line, as far
    as it returns. *)
Lemma parser_extend fuel :
  (forall p n p', factor fuel p = Return (n, p') ->
     factor fuel (ext p) = Return (n, ext p')) /\
  (forall node p n p', term_loop fuel node p = Return (n, p') ->
     term_loop fuel node (ext p) = Return (n, ext p')) /\
  (forall p n p', term fuel p = Return (n, p') ->
     term fuel (ext p) = Return (n, ext p')) /\
  (forall node p n p', additive_loop fuel node p = Return (n, p') ->
     additive_loop fuel node (ext p) = Return (n, ext p')) /\
  (forall p n p', additive fuel p = Return (n, p') ->
     additive fuel (ext p) = Return (n, ext p')) /\
  (forall node p n p', comparison_loop fuel node p = Return (n, p') ->
     comparison_loop fuel node (ext p) = Return (n, ext p')) /\
  (forall p n p', comparison fuel p = Return (n, p') ->
     comparison fuel (ext p) = Return (n, ext p')) /\
  (forall node p n p', equality_loop fuel node p = Return (n, p') ->
     equality_loop fuel node (ext p) = Return (n, ext p')) /\
  (forall p n p', equality fuel p = Return (n, p') ->
     equality fuel (ext p) = Return (n, ext p')) /\
  (forall node p n p', logic_and_loop fuel node p = Return (n, p') ->
     logic_and_loop fuel node (ext p) = Return (n, ext p')) /\
  (forall p n p', logic_and fuel p = Return (n, p') ->
     logic_and fuel (ext p) = Return (n, ext p')) /\
  (forall node p n p', logic_or_loop fuel node p = Return (n, p') ->
     logic_or_loop fuel node (ext p) = Return (n, ext p')) /\
  (forall p n p', logic_or fuel p = Return (n, p') ->
     logic_or fuel (ext p) = Return (n, ext p')) /\
  (forall p n p', expr fuel p = Return (n, p') ->
     expr fuel (ext p) = Return (n, ext p')).
Proof.
  induction fuel as [|fuel IH].
  - repeat apply conj; intros; discriminate.
  - destruct IH as (IHfactor & IHterm_loop & IHterm & IHadditive_loop
      & IHadditive & IHcomparison_loop & IHcomparison & IHequality_loop
      & IHequality & IHlogic_and_loop & IHlogic_and & IHlogic_or_loop
      & IHlogic_or & IHexpr).
    repeat apply conj; intros until p'.
    + unfold_parser.
      destruct (current_token p) as [v|s|name|[]] eqn:Hc; try discriminate;
        rewrite (extend_type p _ (f_equal type Hc) ltac:(discriminate)), Hc;
        repeat first [extend_eat | extend_call factor | extend_call expr];
        extend_finish.
    + extend_loop factor.
    + unfold_parser. extend_call factor; extend_finish.
    + extend_loop term.
    + unfold_parser. extend_call term; extend_finish.
    + extend_loop additive.
    + unfold_parser. extend_call additive; extend_finish.
    + extend_loop comparison.
    + unfold_parser. extend_call comparison; extend_finish.
    + extend_loop equality.
    + unfold_parser. extend_call equality; extend_finish.
    + extend_loop logic_and.
    + unfold_parser. extend_call logic_and; extend_finish.
    + unfold_parser. apply IHlogic_or.
Qed.

Lemma parse_extend fuel p tree p' :
  parse fuel p = Return (tree, p') ->
  parse fuel (ext p) = Return (tree, ext p').
Proof.
  destruct (parser_extend fuel) as (_ & _ & _ & _ & _ & _ & _
    & _ & _ & _ & _ & _ & _ & Hexpr).
  unfold parse, mbind, outcome_bind.
  destruct (current_token p) as [v|s|name|t] eqn:Hc.
  - rewrite (extend_type p _ (f_equal type Hc) ltac:(discriminate)), Hc.
    apply Hexpr.
  - rewrite (extend_type p _ (f_equal type Hc) ltac:(discriminate)), Hc.
    apply Hexpr.
  - rewrite (extend_type p _ (f_equal type Hc) ltac:(discriminate)), Hc.
    destruct (eat IDENTIFIER p) as [p1| |] eqn:E1; try discriminate.
    rewrite (eat_extend IDENTIFIER _ _ ltac:(discriminate) E1).
    destruct (type (current_token p1)) eqn:Ht; try discriminate.
    rewrite (extend_type p1 _ Ht ltac:(discriminate)), Ht.
    destruct (eat ASSIGN p1) as [p2| |] eqn:E2; try discriminate.
    rewrite (eat_extend ASSIGN _ _ ltac:(discriminate) E2).
    destruct (expr fuel p2) as [[value p3]| |] eqn:E3; try discriminate.
    rewrite (Hexpr _ _ _ E3). intros [= <- <-]. reflexivity.
  - destruct (token_type_eqb t EOF) eqn:Heof.
    { apply token_type_eqb_eq in Heof. subst t.
      intros H. exfalso. exact (expr_at_eof _ _ _ Hc H). }
    assert (Hne : t <> EOF).
    { intros ->. discriminate. }
    rewrite (extend_type p t (f_equal type Hc) Hne), Hc.
    destruct t; try apply Hexpr.
    destruct (eat PRINT p) as [p1| |] eqn:E1; try discriminate.
    rewrite (eat_extend PRINT _ _ ltac:(discriminate) E1).
    destruct (expr fuel p1) as [[value p3]| |] eqn:E3; try discriminate.
    rewrite (Hexpr _ _ _ E3). intros [= <- <-]. reflexivity.
Qed.

Lemma Parser_init_extend line p :
  Parser_init line = Return p ->
  Parser_init (String.append line (String c extra)) = Return (ext p).
Proof.
  unfold Parser_init, mbind, outcome_bind.
  destruct (get_next_token line) as [[tok text']| |] eqn:G; try discriminate.
  rewrite (get_next_token_extend _ _ _ c extra Hspace G).
  intros [= <-]. unfold extend. cbn [current_token lexer].
  destruct (is_eof tok); [rewrite Hnext|]; reflexivity.
Qed.

(** At every depth bound at which the line parses, the longer line parses
    too: the addition takes the parser no deeper. *)
Lemma parse_bound_extend n line tree p :
  (p0 ← Parser_init line; parse n p0) = Return (tree, p) ->
  (q ← Parser_init (String.append line (String c extra)); parse n q)
    = Return (tree, ext p).
Proof.
  unfold mbind, outcome_bind.
  destruct (Parser_init line) as [p0| |] eqn:E; try discriminate.
  rewrite (Parser_init_extend _ _ E). apply parse_extend.
Qed.

Lemma parse_line_extend line tree p :
  parse_line line = Return (tree, p) ->
  parse_line (String.append line (String c extra)) = Return (tree, ext p).
Proof.
  intros H. apply (parse_bound_extend (fuel_of line)) in H.
  unfold parse_line, mbind, outcome_bind in *.
  destruct (Parser_init (String.append line (String c extra))) as [q| |];
    try discriminate.
  rewrite <- H. apply parse_fuel.
  - unfold fuel_of. rewrite length_append. lia.
  - rewrite H. discriminate.
Qed.

End Trailing.




(** ** String literals and identifiers *)

(** C3 (the code departs from the claim): after [x = 10] the line made of
    the string literal ["x"] evaluates to 10.0 and not to the text [x].
    [factor] returns the same [str] leaf for a string literal and for an
    identifier, and [evaluate] looks every [str] leaf up in the
    environment. *)
Theorem string_literal_reads_variable :
  parse_line (quoted "x") = parse_line "(x)" /\
  fst (evaluate (Leaf (VStr "x")) (set_env "x" (VFloat 10) initial))
    = Return (VFloat 10) /\
  stdout (run_file ["x = 10"; quoted "x"] initial)
    = [Echo (quoted "x") (VFloat 10)].
Proof. repeat split; vm_compute; reflexivity. Qed.

(** C6: an identifier is a [str] leaf; [evaluate] returns the value
    stored under its name when the environment has one and the name
    itself, as a string, when it has none; the state is unchanged. *)
Theorem identifier_lookup name st :
  (forall fuel text,
     factor (S fuel) (mkParser text (TokIdentifier name))
     = (p ← eat IDENTIFIER (mkParser text (TokIdentifier name));
        Return (Leaf (VStr name), p))) /\
  (forall v, global_env st !! name = Some v ->
     evaluate (Leaf (VStr name)) st = (Return v, st)) /\
  (global_env st !! name = None ->
     evaluate (Leaf (VStr name)) st = (Return (VStr name), st)).
Proof.
  split; [reflexivity|].
  split; [intros v H|intros H]; simpl; rewrite H; reflexivity.
Qed.

Lemma identifier_lookup_witness :
  evaluate (Leaf (VStr "x")) (set_env "x" (VFloat 10) initial)
    = (Return (VFloat 10), set_env "x" (VFloat 10) initial) /\
  evaluate (Leaf (VStr "foo")) initial = (Return (VStr "foo"), initial).
Proof.
  split.
  - apply (proj1 (proj2 (identifier_lookup "x" (set_env "x" (VFloat 10) initial)))).
    reflexivity.
  - apply (proj2 (proj2 (identifier_lookup "foo" initial))).
    reflexivity.
Defined.

(** ** Binary operators *)

(** C4: the left operand is evaluated first, the right operand is then
    evaluated in the state the left one leaves, whatever the operator and
    whatever the left value, and only then is the operator applied: an
    exception of the right operand is the exception of the whole, for
    [and] and [or] as for the others. *)
Theorem both_operands_are_evaluated op lhs rhs st lval st1 r st2 :
  evaluate lhs st = (Return lval, st1) ->
  evaluate rhs st1 = (r, st2) ->
  evaluate (BinOp op lhs rhs) st = (rval ← r; binary op lval rval, st2).
Proof.
  intros Hl Hr. simpl. rewrite Hl, Hr. destruct r; reflexivity.
Qed.

(** [true or (1/0 == 1)] raises [Division by zero]. *)
Lemma both_operands_are_evaluated_witness :
  evaluate (BinOp Or (Leaf (VBool true))
              (BinOp Eq (BinOp Div (Leaf (VFloat 1)) (Leaf (VFloat 0)))
                 (Leaf (VFloat 1)))) initial
  = (rval ← Raise DivisionByZero; binary Or (VBool true) rval, initial).
Proof.
  apply (both_operands_are_evaluated Or (Leaf (VBool true))
           (BinOp Eq (BinOp Div (Leaf (VFloat 1)) (Leaf (VFloat 0)))
              (Leaf (VFloat 1)))
           initial (VBool true) initial (Raise DivisionByZero) initial).
  - reflexivity.
  - vm_compute. reflexivity.
Defined.

Example or_does_not_short_circuit :
  parse_line "true or (1/0 == 1)"
    = Return (BinOp Or (Leaf (VBool true))
                (BinOp Eq (BinOp Div (Leaf (VFloat 1)) (Leaf (VFloat 0)))
                   (Leaf (VFloat 1))),
              mkParser EmptyString (Tok EOF)) /\
  stdout (run_file ["true or (1/0 == 1)"] initial)
    = [ErrorLine "true or (1/0 == 1)" DivisionByZero].
Proof. split; vm_compute; reflexivity. Qed.

(** C5: once both operands have values, [and] gives the right value when
    the left one is truthy and the left value otherwise, [or] gives the
    left value when it is truthy and the right one otherwise; a number is
    truthy when it does not equal zero, a string when it is not empty, a
    boolean when it is [True]. *)
Theorem and_or_select_an_operand lhs rhs st lval st1 rval st2 :
  evaluate lhs st = (Return lval, st1) ->
  evaluate rhs st1 = (Return rval, st2) ->
  evaluate (BinOp And lhs rhs) st
    = (Return (if truthy lval then rval else lval), st2) /\
  evaluate (BinOp Or lhs rhs) st
    = (Return (if truthy lval then lval else rval), st2) /\
  (forall f, truthy (VFloat f) = negb (PrimFloat.eqb f 0)) /\
  (forall s, truthy (VStr s) = true <-> s <> EmptyString) /\
  (forall b, truthy (VBool b) = b).
Proof.
  intros Hl Hr. simpl. rewrite Hl, Hr.
  repeat split; try reflexivity.
  - intros H ->. discriminate.
  - intros H. destruct s; [congruence | reflexivity].
Qed.

Lemma and_or_select_an_operand_witness :
  evaluate (BinOp And (Leaf (VFloat 0)) (Leaf (VFloat 5))) initial
    = (Return (if truthy (VFloat 0) then VFloat 5 else VFloat 0), initial) /\
  evaluate (BinOp Or (Leaf (VFloat 0)) (Leaf (VFloat 5))) initial
    = (Return (if truthy (VFloat 0) then VFloat 0 else VFloat 5), initial) /\
  (forall f, truthy (VFloat f) = negb (PrimFloat.eqb f 0)) /\
  (forall s, truthy (VStr s) = true <-> s <> EmptyString) /\
  (forall b, truthy (VBool b) = b).
Proof.
  apply (and_or_select_an_operand (Leaf (VFloat 0)) (Leaf (VFloat 5))
           initial (VFloat 0) initial (VFloat 5) initial).
  - reflexivity.
  - reflexivity.
Defined.

(** ** Arithmetic and division *)

(** [rval == 0] for a float is the float comparison with zero. *)
Lemma py_eq_float_zero f : py_eq (VFloat f) (VInt 0) = PrimFloat.eqb f 0.
Proof.
  rewrite FloatAxioms.eqb_spec.
  change (Prim2SF 0) with (S754_zero false).
  unfold py_eq, as_number, num_eqb, float_cmp_int.
  destruct (Prim2SF f) as [s|s| |s m e]; try reflexivity.
  - destruct s; reflexivity.
  - assert (Hne : forall z : Z, z <> 0 -> (z ?= 0) <> Datatypes.Eq).
    { intros z Hz Hc. apply Z.compare_eq in Hc. contradiction. }
    assert (Hv : cond_Zopp s (Zpos m) <> 0) by (destruct s; discriminate).
    destruct (0 <=? e) eqn:He.
    + apply Z.leb_le in He.
      assert (H2 : cond_Zopp s (Z.pos m) * 2 ^ e <> 0).
      { apply Z.neq_mul_0. split; [exact Hv|]. apply Z.pow_nonzero; lia. }
      specialize (Hne _ H2). simpl.
      destruct (cond_Zopp s (Z.pos m) * 2 ^ e ?= 0); try congruence;
        destruct s; reflexivity.
    + specialize (Hne _ Hv). simpl.
      destruct (cond_Zopp s (Z.pos m) ?= 0); try congruence;
        destruct s; reflexivity.
Qed.

(** C7 (as stated, refuted): a Boolean mixed with a Number is no type
    error.  [true + 1] is 2.0, [true * 2] is 2.0, and a string times a
    Boolean is a string. *)
Lemma mixed_types_counterexample :
  binary Add (VBool true) (VFloat 1) = Return (VFloat 2) /\
  binary Mul (VBool true) (VFloat 2) = Return (VFloat 2) /\
  binary Mul (VStr "ab") (VBool true) = Return (VStr "ab") /\
  stdout (run_file ["true + 1"] initial) = [Echo "true + 1" (VFloat 2)].
Proof. repeat split; vm_compute; reflexivity. Qed.

(** C7 (amended): applied to a String and a Number, in either order, each
    of [+ - * /] raises the host's type error for that operator and those
    operand types, except that a string divided by a zero number raises
    [Division by zero]; a Boolean mixed with a Number is not an error: it
    counts as 1.0 or 0.0 in [+ - *]. *)
Theorem string_number_type_error s f :
  binary Add (VStr s) (VFloat f) = Raise (TypeError "+" [Tstr; Tfloat]) /\
  binary Add (VFloat f) (VStr s) = Raise (TypeError "+" [Tfloat; Tstr]) /\
  binary Sub (VStr s) (VFloat f) = Raise (TypeError "-" [Tstr; Tfloat]) /\
  binary Sub (VFloat f) (VStr s) = Raise (TypeError "-" [Tfloat; Tstr]) /\
  binary Mul (VStr s) (VFloat f) = Raise (TypeError "*" [Tstr; Tfloat]) /\
  binary Mul (VFloat f) (VStr s) = Raise (TypeError "*" [Tfloat; Tstr]) /\
  binary Div (VFloat f) (VStr s) = Raise (TypeError "/" [Tfloat; Tstr]) /\
  binary Div (VStr s) (VFloat f)
    = (if PrimFloat.eqb f 0 then Raise DivisionByZero
       else Raise (TypeError "/" [Tstr; Tfloat])) /\
  forall b : bool,
    let x := (if b then 1 else 0)%float in
    binary Add (VBool b) (VFloat f) = Return (VFloat (x + f)) /\
    binary Add (VFloat f) (VBool b) = Return (VFloat (f + x)) /\
    binary Sub (VBool b) (VFloat f) = Return (VFloat (x - f)) /\
    binary Sub (VFloat f) (VBool b) = Return (VFloat (f - x)) /\
    binary Mul (VBool b) (VFloat f) = Return (VFloat (x * f)) /\
    binary Mul (VFloat f) (VBool b) = Return (VFloat (f * x)).
Proof.
  repeat (split; [reflexivity|]).
  split.
  { cbn [binary]. rewrite py_eq_float_zero.
    destruct (PrimFloat.eqb f 0); reflexivity. }
  intros [|]; repeat split; reflexivity.
Qed.

(** C8: in a division, a right value equal to zero raises [Division by
    zero] before anything is divided, whatever the left value; with a
    float on each side and a right value that is not zero the result is
    the quotient.  A line that is such a division by zero adds its error
    line, [Division by zero], to the output, leaves the environment as it
    was, and the run goes on with the next line; so does any line that
    raises. *)
Theorem division_checks_for_zero lhs rhs st lval st1 rval st2 :
  evaluate lhs st = (Return lval, st1) ->
  evaluate rhs st1 = (Return rval, st2) ->
  (py_eq rval (VInt 0) = true ->
     evaluate (BinOp Div lhs rhs) st = (Raise DivisionByZero, st2)) /\
  (forall x y, lval = VFloat x -> rval = VFloat y ->
     (PrimFloat.eqb y 0 = true ->
        evaluate (BinOp Div lhs rhs) st = (Raise DivisionByZero, st2)) /\
     (PrimFloat.eqb y 0 = false ->
        evaluate (BinOp Div lhs rhs) st = (Return (VFloat (x / y)), st2))) /\
  (forall line p rest,
     parse_line (strip line) = Return (BinOp Div lhs rhs, p) ->
     py_eq rval (VInt 0) = true ->
     stdout (run_line line st)
       = (stdout st ++ [ErrorLine (strip line) DivisionByZero])%list /\
     global_env (run_line line st) = global_env st /\
     run_file (line :: rest) st = run_file rest (run_line line st)) /\
  (forall line rest st0 e st',
     strip line <> EmptyString ->
     execute (strip line) st0 = (Raise e, st') ->
     stdout (run_line line st0)
       = (stdout st0 ++ [ErrorLine (strip line) e])%list /\
     run_file (line :: rest) st0
       = run_file rest (write (ErrorLine (strip line) e) st')).
Proof.
  intros Hl Hr.
  assert (Hdiv : evaluate (BinOp Div lhs rhs) st = (binary Div lval rval, st2)).
  { simpl. rewrite Hl, Hr. reflexivity. }
  assert (Hany : forall line rest st0 e st',
            strip line <> EmptyString ->
            execute (strip line) st0 = (Raise e, st') ->
            stdout (run_line line st0)
              = (stdout st0 ++ [ErrorLine (strip line) e])%list /\
            run_file (line :: rest) st0
              = run_file rest (write (ErrorLine (strip line) e) st')).
  { intros line rest st0 e st' Hne Hex.
    assert (Hrun : run_line line st0 = write (ErrorLine (strip line) e) st').
    { unfold run_line. destruct (strip line) as [|c l'] eqn:Hs; [congruence|].
      rewrite Hex. reflexivity. }
    split.
    - rewrite Hrun, (execute_Raise _ _ _ _ Hex). reflexivity.
    - unfold run_file. cbn [fold_left]. rewrite Hrun. reflexivity. }
  rewrite Hdiv. split; [|split; [|split]].
  - intros Hz. cbn [binary]. rewrite Hz. reflexivity.
  - intros x y -> ->. cbn [binary]. rewrite py_eq_float_zero.
    split; intros Hy; rewrite Hy; reflexivity.
  - intros line p rest Hp Hz.
    assert (Hne : strip line <> EmptyString).
    { intros E. rewrite E in Hp. vm_compute in Hp. discriminate. }
    assert (Hex : execute (strip line) st = (Raise DivisionByZero, st2)).
    { unfold execute. rewrite Hp, Hdiv. cbn [binary]. rewrite Hz. reflexivity. }
    destruct (Hany line rest st DivisionByZero st2 Hne Hex) as [Hout Hrest].
    pose proof (execute_Raise _ _ _ _ Hex) as Hst. subst st2.
    assert (Hrun : run_line line st = write (ErrorLine (strip line) DivisionByZero) st).
    { unfold run_line. destruct (strip line) as [|c l'] eqn:Hs; [congruence|].
      rewrite Hex. reflexivity. }
    split; [exact Hout|]. split; [rewrite Hrun; reflexivity|].
    rewrite Hrun. exact Hrest.
  - exact Hany.
Qed.

(** [5 / 0]: the evaluation raises, and the line writes its error line. *)
Lemma division_checks_for_zero_witness :
  evaluate (BinOp Div (Leaf (VFloat 5)) (Leaf (VFloat 0))) initial
    = (Raise DivisionByZero, initial) /\
  stdout (run_line "5 / 0" initial)
    = (stdout initial ++ [ErrorLine (strip "5 / 0") DivisionByZero])%list /\
  global_env (run_line "5 / 0" initial) = global_env initial /\
  run_file ["5 / 0"; "6 / 3"] initial = run_file ["6 / 3"] (run_line "5 / 0" initial).
Proof.
  destruct (division_checks_for_zero (Leaf (VFloat 5)) (Leaf (VFloat 0))
              initial (VFloat 5) initial (VFloat 0) initial eq_refl eq_refl)
    as (Hzero & _ & Hline & _).
  split; [apply Hzero; reflexivity|].
  apply (Hline "5 / 0" (mkParser EmptyString (Tok EOF)) ["6 / 3"]).
  - vm_compute. reflexivity.
  - reflexivity.
Defined.

Example five_by_zero_then_next_line :
  stdout (run_file ["5 / 0"; "6 / 3"] initial)
    = [ErrorLine "5 / 0" DivisionByZero; Echo "6 / 3" (VFloat 2)].
Proof. vm_compute. reflexivity. Qed.

(** C10: whatever the left value, a division whose right operand has the
    value [False] raises [Division by zero] and not a type error: the test
    [rval == 0] comes before the division and [False == 0] holds. *)
Theorem division_by_false lhs rhs st lval st1 st2 :
  evaluate lhs st = (Return lval, st1) ->
  evaluate rhs st1 = (Return (VBool false), st2) ->
  py_eq (VBool false) (VInt 0) = true /\
  evaluate (BinOp Div lhs rhs) st = (Raise DivisionByZero, st2).
Proof.
  intros Hl Hr. split; [reflexivity|].
  simpl. rewrite Hl, Hr. reflexivity.
Qed.

Lemma division_by_false_witness :
  py_eq (VBool false) (VInt 0) = true /\
  evaluate (BinOp Div (Leaf (VStr "ab")) (Leaf (VBool false))) initial
    = (Raise DivisionByZero, initial).
Proof.
  apply (division_by_false (Leaf (VStr "ab")) (Leaf (VBool false))
           initial (VStr "ab") initial initial).
  - reflexivity.
  - reflexivity.
Defined.

(** ** Failing lines *)

(** C9: when lexing, parsing or evaluating a line raises, the state is
    what it was before the line but for one error line, with the stripped
    text of the line and the exception, added at the end of the output:
    the environment is unchanged (an assignment whose right-hand side
    raises stores nothing), and the run goes on with the next line. *)
Theorem failing_line_changes_nothing line st e st' :
  strip line <> EmptyString ->
  execute (strip line) st = (Raise e, st') ->
  st' = st /\
  run_line line st = write (ErrorLine (strip line) e) st /\
  stdout (run_line line st) = (stdout st ++ [ErrorLine (strip line) e])%list /\
  global_env (run_line line st) = global_env st /\
  forall rest,
    run_file (line :: rest) st
      = run_file rest (write (ErrorLine (strip line) e) st).
Proof.
  intros Hne Hex.
  assert (Hst : st' = st) by exact (execute_Raise _ _ _ _ Hex).
  subst st'.
  assert (Hrun : run_line line st = write (ErrorLine (strip line) e) st).
  { unfold run_line. destruct (strip line) as [|c l'] eqn:Hs; [congruence|].
    rewrite Hex. reflexivity. }
  split; [reflexivity|]. split; [exact Hrun|].
  split; [rewrite Hrun; reflexivity|].
  split; [rewrite Hrun; reflexivity|].
  intros rest. unfold run_file. cbn [fold_left]. rewrite Hrun. reflexivity.
Qed.

Lemma failing_line_changes_nothing_witness :
  set_env "y" (VFloat 1) initial = set_env "y" (VFloat 1) initial /\
  run_line "y = 2 + 1/0" (set_env "y" (VFloat 1) initial)
    = write (ErrorLine (strip "y = 2 + 1/0") DivisionByZero)
        (set_env "y" (VFloat 1) initial) /\
  stdout (run_line "y = 2 + 1/0" (set_env "y" (VFloat 1) initial))
    = (stdout (set_env "y" (VFloat 1) initial)
       ++ [ErrorLine (strip "y = 2 + 1/0") DivisionByZero])%list /\
  global_env (run_line "y = 2 + 1/0" (set_env "y" (VFloat 1) initial))
    = global_env (set_env "y" (VFloat 1) initial) /\
  forall rest,
    run_file ("y = 2 + 1/0" :: rest) (set_env "y" (VFloat 1) initial)
      = run_file rest
          (write (ErrorLine (strip "y = 2 + 1/0") DivisionByZero)
             (set_env "y" (VFloat 1) initial)).
Proof.
  apply (failing_line_changes_nothing "y = 2 + 1/0"
           (set_env "y" (VFloat 1) initial) DivisionByZero
           (set_env "y" (VFloat 1) initial)).
  - discriminate.
  - vm_compute. reflexivity.
Defined.

(** * Further properties *)

(** ** What the lexer reads *)

Lemma append_assoc (a b c : string) :
  String.append (String.append a b) c = String.append a (String.append b c).
Proof.
  induction a as [|x a IH]; [reflexivity|].
  rewrite !append_cons, IH. reflexivity.
Qed.

Lemma append_empty_r (a : string) : String.append a EmptyString = a.
Proof.
  induction a as [|x a IH]; [reflexivity|].
  rewrite append_cons, IH. reflexivity.
Qed.

Lemma take_while_split f text result text' :
  take_while f text = (result, text') ->
  text = String.append result text' /\
  all_chars f result = true /\ stops f text' = true.
Proof.
  revert result text'. induction text as [|c rest IH]; intros result text' H;
    simpl in H.
  - inversion H; subst. repeat split.
  - destruct (f c) eqn:Hc.
    + destruct (take_while f rest) as [a b] eqn:E. inversion H; subst.
      destruct (IH _ _ eq_refl) as (H1 & H2 & H3).
      rewrite append_cons, <- H1. cbn [all_chars]. rewrite Hc, H2.
      repeat split. exact H3.
    + inversion H; subst. simpl. rewrite Hc. repeat split.
Qed.

Lemma take_while_append f w rest :
  all_chars f w = true -> stops f rest = true ->
  take_while f (String.append w rest) = (w, rest).
Proof.
  intros Hw Hrest. induction w as [|c w IH].
  - change (String.append EmptyString rest) with rest.
    destruct rest as [|c rest]; [reflexivity|].
    simpl in *. destruct (f c); [discriminate | reflexivity].
  - cbn [all_chars] in Hw. apply andb_prop in Hw as [Hc Hw].
    rewrite append_cons. cbn [take_while]. rewrite Hc, (IH Hw). reflexivity.
Qed.

(** X1: the lexer reads from the front and loses nothing: the text left
    after a token is a suffix of the text before it, and a token other
    than [EOF] has taken at least one character. *)
Theorem lexer_leaves_a_suffix text tok text' :
  get_next_token text = Return (tok, text') ->
  (exists consumed, text = String.append consumed text') /\
  (type tok <> EOF -> (String.length text' < String.length text)%nat).
Proof.
  intros H. split.
  - revert tok text' H. induction text as [|c rest IH]; intros tok text' H.
    + inversion H; subst. exists EmptyString. reflexivity.
    + cbn [get_next_token] in H.
      destruct (isspace c).
      { destruct (IH _ _ H) as [consumed ->]. exists (String c consumed). reflexivity. }
      destruct (isdigit c).
      { unfold number in H. destruct (take_while _ _) as [result t'] eqn:E.
        apply take_while_split in E as (E & _).
        destruct (py_float result); inversion H; subst t'.
        exists result. exact E. }
      destruct (isalpha c).
      { unfold identifier in H. destruct (take_while _ _) as [result t'] eqn:E.
        apply take_while_split in E as (E & _).
        exists result.
        repeat match type of H with
               | (if ?b then _ else _) = _ => destruct b
               end; inversion H; subst t'; exact E. }
      destruct (Ascii.eqb c dquote).
      { unfold string_ in H. destruct (take_while _ rest) as [result t'] eqn:E.
        apply take_while_split in E as (E & _).
        destruct t' as [|q t'']; inversion H; subst.
        exists (String c (String.append result (String q EmptyString))).
        rewrite !append_cons, append_assoc. reflexivity. }
      repeat match type of H with
             | (if ?b then _ else _) = _ => destruct b
             end;
        try (unfold one_or_two in H;
             destruct rest as [|c' rest']; [|destruct (Ascii.eqb c' "=")]);
        inversion H; subst;
        first [ exists (String c EmptyString); reflexivity
              | exists (String c (String c' EmptyString)); reflexivity ].
  - intros Htok. apply get_next_token_length in H.
    unfold is_eof in H.
    destruct (token_type_eqb (type tok) EOF) eqn:E; [|lia].
    apply token_type_eqb_eq in E. contradiction.
Qed.

Lemma lexer_leaves_a_suffix_witness :
  (exists consumed, "  12 + x" = String.append consumed " + x") /\
  (type (TokInteger 12) <> EOF ->
   (String.length " + x" < String.length "  12 + x")%nat).
Proof.
  apply (lexer_leaves_a_suffix "  12 + x" (TokInteger 12) " + x").
  vm_compute. reflexivity.
Defined.


Lemma isalpha_first c :
  isalpha c = true -> isspace c = false /\ isdigit c = false.
Proof. destruct c as [[] [] [] [] [] [] [] []]; vm_compute; intros H; auto; discriminate. Qed.

Lemma isdecimal_first c :
  isdecimal c = true ->
  isspace c = false /\ isdigit c = true /\ Ascii.eqb c "." = false.
Proof. destruct c as [[] [] [] [] [] [] [] []]; vm_compute; intros H; auto; discriminate. Qed.

Lemma isdigit_first c : isdigit c = true -> isspace c = false.
Proof. destruct c as [[] [] [] [] [] [] [] []]; vm_compute; intros H; auto; discriminate. Qed.

(** X2: [EOF] is returned exactly when only white space is left, and then
    nothing is left after it; every other text gives another token or an
    exception. *)
Theorem eof_iff_blank text :
  (all_chars isspace text = true <->
   get_next_token text = Return (Tok EOF, EmptyString)) /\
  (forall tok text', get_next_token text = Return (tok, text') ->
     type tok = EOF -> tok = Tok EOF /\ text' = EmptyString).
Proof.
  assert (Hback : forall tok text', get_next_token text = Return (tok, text') ->
            type tok = EOF ->
            tok = Tok EOF /\ text' = EmptyString /\ all_chars isspace text = true).
  { induction text as [|c rest IH]; intros tok text' H Ht.
    - inversion H; subst. repeat split.
    - cbn [get_next_token] in H. cbn [all_chars].
      destruct (isspace c). { exact (IH _ _ H Ht). }
      exfalso.
      destruct (isdigit c).
      { unfold number in H. destruct (take_while _ _) as [result t'].
        destruct (py_float result); inversion H; subst. discriminate. }
      destruct (isalpha c).
      { unfold identifier in H. destruct (take_while _ _) as [result t'].
        repeat match type of H with
               | (if ?b then _ else _) = _ => destruct b
               end; inversion H; subst; discriminate. }
      destruct (Ascii.eqb c dquote).
      { unfold string_ in H. destruct (take_while _ rest) as [result t'].
        destruct t'; inversion H; subst. discriminate. }
      repeat match type of H with
             | (if ?b then _ else _) = _ => destruct b
             end;
        try (unfold one_or_two in H;
             destruct rest as [|c' rest']; [|destruct (Ascii.eqb c' "=")]);
        inversion H; subst; discriminate. }
  split; [split|].
  - intros Hall. induction text as [|c rest IH]; [reflexivity|].
    cbn [all_chars] in Hall. apply andb_prop in Hall as [Hc Hrest].
    cbn [get_next_token]. rewrite Hc. apply IH; [|exact Hrest].
    intros tok text' H Ht. specialize (Hback tok text').
    cbn [get_next_token all_chars] in Hback. rewrite Hc in Hback.
    exact (Hback H Ht).
  - intros H. apply (Hback _ _ H). reflexivity.
  - intros tok text' H Ht. destruct (Hback _ _ H Ht) as (H1 & H2 & _). auto.
Qed.

Lemma identifier_keyword text :
  identifier text
  = (let '(result, text') := take_while isalnum text in
     Return (match keyword result with
             | Some t => Tok t
             | None => TokIdentifier result
             end, text')).
Proof.
  unfold identifier, keyword. destruct (take_while isalnum text) as [result t'].
  repeat match goal with
         | |- context [String.eqb ?a ?b] => destruct (String.eqb a b)
         end; reflexivity.
Qed.

Lemma eof_iff_blank_witness :
  get_next_token "   " = Return (Tok EOF, EmptyString).
Proof. apply (proj1 (proj1 (eof_iff_blank "   "))). reflexivity. Defined.

(** X3: a word of letters and digits that begins with a letter, followed
    by the end of the text or by a character that is neither, is read
    whole: as the keyword token when it is one of [true], [false], [and],
    [or], [print], as an identifier with that name otherwise. *)
Theorem identifier_is_read_whole c w rest :
  isalpha c = true ->
  all_chars isalnum w = true ->
  stops isalnum rest = true ->
  get_next_token (String.append (String c w) rest)
  = Return (match keyword (String c w) with
            | Some t => Tok t
            | None => TokIdentifier (String c w)
            end, rest).
Proof.
  intros Hc Hw Hrest.
  destruct (isalpha_first c Hc) as [Hs Hd].
  rewrite append_cons. cbn [get_next_token]. rewrite Hs, Hd, Hc.
  rewrite <- append_cons, identifier_keyword.
  rewrite take_while_append; [reflexivity| |exact Hrest].
  cbn [all_chars]. rewrite (isalpha_isalnum c Hc), Hw. reflexivity.
Qed.

Lemma identifier_is_read_whole_witness :
  get_next_token (String.append (String "p" "rint") "(x)")
  = Return (match keyword (String "p" "rint") with
            | Some t => Tok t
            | None => TokIdentifier (String "p" "rint")
            end, "(x)").
Proof.
  apply (identifier_is_read_whole "p" "rint" "(x)"); reflexivity.
Defined.

(** X4: the name of an identifier token is never a keyword; it is a
    letter followed by letters and digits, so it is not empty and has no
    underscore. *)
Theorem identifier_token_name text name text' :
  get_next_token text = Return (TokIdentifier name, text') ->
  keyword name = None /\
  all_chars isalnum name = true /\
  exists c w, name = String c w /\ isalpha c = true.
Proof.
  revert name text'. induction text as [|c rest IH]; intros name text' H.
  - discriminate.
  - cbn [get_next_token] in H.
    destruct (isspace c). { exact (IH _ _ H). }
    destruct (isdigit c).
    { unfold number in H. destruct (take_while _ _) as [result t'].
      destruct (py_float result); discriminate. }
    destruct (isalpha c) eqn:Ha.
    { rewrite identifier_keyword in H.
      destruct (take_while isalnum (String c rest)) as [result t'] eqn:E.
      pose proof (take_while_split _ _ _ _ E) as (_ & Hall & _).
      cbn [take_while] in E. rewrite (isalpha_isalnum c Ha) in E.
      destruct (take_while isalnum rest) as [a b]. inversion E; subst result t'.
      destruct (keyword (String c a)) eqn:Hk; inversion H; subst.
      split; [exact Hk|]. split; [exact Hall|].
      exists c, a. split; [reflexivity | exact Ha]. }
    destruct (Ascii.eqb c dquote).
    { unfold string_ in H. destruct (take_while _ rest) as [result t'].
      destruct t'; discriminate. }
    repeat match type of H with
           | (if ?b then _ else _) = _ => destruct b
           end;
      try (unfold one_or_two in H;
           destruct rest as [|c' rest']; [|destruct (Ascii.eqb c' "=")]);
      discriminate.
Qed.

Lemma identifier_token_name_witness :
  keyword "truex" = None /\
  all_chars isalnum "truex" = true /\
  exists c w, "truex" = String c w /\ isalpha c = true.
Proof.
  apply (identifier_token_name " truex = 1" "truex" " = 1").
  vm_compute. reflexivity.
Defined.

Lemma digits_value_some w acc :
  all_chars isdecimal w = true -> exists n, digits_value w acc = Some n.
Proof.
  revert acc. induction w as [|c w IH]; intros acc H.
  - exists acc. reflexivity.
  - cbn [all_chars] in H. apply andb_prop in H as [Hc Hw].
    cbn [digits_value]. rewrite Hc. apply IH, Hw.
Qed.

Lemma split_dot_digits w :
  all_chars isdecimal w = true -> split_dot w = (w, None).
Proof.
  induction w as [|c w IH]; intros H; [reflexivity|].
  cbn [all_chars] in H. apply andb_prop in H as [Hc Hw].
  destruct (isdecimal_first c Hc) as (_ & _ & Hdot).
  cbn [split_dot]. rewrite Hdot, (IH Hw). reflexivity.
Qed.

Lemma split_dot_fraction w1 w2 :
  all_chars isdecimal w1 = true ->
  split_dot (String.append w1 (String "." w2)) = (w1, Some w2).
Proof.
  induction w1 as [|c w IH]; intros H.
  - reflexivity.
  - cbn [all_chars] in H. apply andb_prop in H as [Hc Hw].
    destruct (isdecimal_first c Hc) as (_ & _ & Hdot).
    rewrite append_cons. cbn [split_dot]. rewrite Hdot, (IH Hw). reflexivity.
Qed.

Lemma all_chars_append f a b :
  all_chars f a = true -> all_chars f b = true ->
  all_chars f (String.append a b) = true.
Proof.
  intros Ha Hb. induction a as [|c a IH]; [exact Hb|].
  cbn [all_chars] in Ha. apply andb_prop in Ha as [Hc Ha].
  rewrite append_cons. cbn [all_chars]. rewrite Hc, (IH Ha). reflexivity.
Qed.

Lemma all_chars_weaken (f g : ascii -> bool) s :
  (forall c, f c = true -> g c = true) ->
  all_chars f s = true -> all_chars g s = true.
Proof.
  intros Hfg. induction s as [|c s IH]; intros H; [reflexivity|].
  cbn [all_chars] in *. apply andb_prop in H as [Hc Hs].
  rewrite (Hfg _ Hc), (IH Hs). reflexivity.
Qed.

(** X5: a number written as one or more ASCII digits, optionally followed
    by a dot and more digits, and then by the end of the text or a
    character that is neither a digit nor a dot, is always read, as one
    [INTEGER] token: its value is the double nearest to the digits taken
    as an integer divided by ten to the number of digits after the dot. *)
Theorem decimal_literal_is_read c w1 frac rest :
  isdecimal c = true ->
  all_chars isdecimal w1 = true ->
  match frac with Some w2 => all_chars isdecimal w2 = true | None => True end ->
  stops (fun c => (isdigit c || Ascii.eqb c ".")%bool) rest = true ->
  let digits := String.append (String c w1)
                  (match frac with Some w2 => w2 | None => EmptyString end) in
  let written := String.append (String c w1)
                   (match frac with Some w2 => String "." w2 | None => EmptyString end) in
  exists n,
    digits_value digits 0 = Some n /\
    get_next_token (String.append written rest)
    = Return (TokInteger
                (SF2Prim (nearest_quotient n
                   (10 ^ Z.of_nat (match frac with
                                   | Some w2 => String.length w2
                                   | None => O
                                   end)))), rest).
Proof.
  intros Hc Hw1 Hfrac Hrest digits written.
  destruct (isdecimal_first c Hc) as (Hs & Hd & Hdot).
  assert (Hint : all_chars isdecimal (String c w1) = true).
  { cbn [all_chars]. rewrite Hc, Hw1. reflexivity. }
  assert (Hdigits : all_chars isdecimal digits = true).
  { unfold digits. apply all_chars_append; [exact Hint|].
    destruct frac; [exact Hfrac | reflexivity]. }
  destruct (digits_value_some digits 0 Hdigits) as [n Hn].
  exists n. split; [exact Hn|].
  assert (Hrun : all_chars (fun c => (isdigit c || Ascii.eqb c ".")%bool) written = true).
  { unfold written. apply all_chars_append.
    - apply (all_chars_weaken isdecimal); [|exact Hint].
      intros x Hx. destruct (isdecimal_first x Hx) as (_ & -> & _). reflexivity.
    - destruct frac as [w2|]; [|reflexivity].
      cbn [all_chars]. apply (all_chars_weaken isdecimal); [|exact Hfrac].
      intros x Hx. destruct (isdecimal_first x Hx) as (_ & -> & _). reflexivity. }
  assert (Hstart : exists t, String.append written rest = String c t).
  { unfold written. rewrite !append_cons. eauto. }
  destruct Hstart as [t Ht].
  assert (Hnum : get_next_token (String.append written rest)
                 = number (String.append written rest)).
  { rewrite Ht. cbn [get_next_token]. rewrite Hs, Hd. reflexivity. }
  rewrite Hnum. unfold number.
  rewrite (take_while_append _ written rest Hrun Hrest).
  unfold py_float, written.
  destruct frac as [w2|].
  - rewrite (split_dot_fraction (String c w1) w2 Hint).
    unfold digits in Hn. rewrite Hn.
    rewrite append_cons. cbn [String.length Nat.add Nat.eqb]. reflexivity.
  - rewrite append_empty_r, (split_dot_digits (String c w1) Hint).
    unfold digits in Hn. rewrite Hn.
    cbn [String.length Nat.add Nat.eqb]. reflexivity.
Qed.

Lemma decimal_literal_is_read_witness :
  let digits := String.append (String "1" "2") "50" in
  let written := String.append (String "1" "2") (String "." "50") in
  exists n,
    digits_value digits 0 = Some n /\
    get_next_token (String.append written " + 1")
    = Return (TokInteger (SF2Prim (nearest_quotient n (10 ^ Z.of_nat (String.length "50")))),
              " + 1").
Proof.
  apply (decimal_literal_is_read "1" "2" (Some "50") " + 1"); reflexivity.
Defined.

Lemma digits_value_dot s acc :
  (1 <= count_char "." s)%nat -> digits_value s acc = None.
Proof.
  revert acc. induction s as [|c s IH]; intros acc H; cbn [count_char] in H.
  - lia.
  - cbn [digits_value]. destruct (isdecimal c) eqn:Hc; [|reflexivity].
    destruct (isdecimal_first c Hc) as (_ & _ & Hdot). rewrite Hdot in H.
    apply IH. lia.
Qed.

Lemma count_char_append c a b :
  count_char c (String.append a b) = (count_char c a + count_char c b)%nat.
Proof.
  induction a as [|x a IH]; [reflexivity|].
  rewrite append_cons. cbn [count_char]. rewrite IH. lia.
Qed.

Lemma split_dot_count s ip fp :
  split_dot s = (ip, fp) ->
  count_char "." ip = O /\
  count_char "." s
  = match fp with Some t => S (count_char "." t) | None => O end.
Proof.
  revert ip fp. induction s as [|c s IH]; intros ip fp H; cbn [split_dot] in H.
  - inversion H; subst. split; reflexivity.
  - cbn [count_char]. destruct (Ascii.eqb c ".") eqn:Hc.
    + inversion H; subst. split; reflexivity.
    + destruct (split_dot s) as [a b]. inversion H; subst.
      destruct (IH _ _ eq_refl) as [H1 H2].
      cbn [count_char]. rewrite Hc, H1, H2. split; reflexivity.
Qed.

(** X6: a run of digits and dots with two dots or more is read as one
    run and then refused: the lexer raises the [ValueError] of
    [float(...)] on the whole run. *)
Theorem two_dots_raise_ValueError c rest result text' :
  isdigit c = true ->
  take_while (fun c => (isdigit c || Ascii.eqb c ".")%bool) (String c rest)
    = (result, text') ->
  (2 <= count_char "." result)%nat ->
  get_next_token (String c rest) = Raise (ValueError result).
Proof.
  intros Hc Hrun Hdots.
  cbn [get_next_token]. rewrite (isdigit_first c Hc), Hc.
  unfold number. rewrite Hrun. unfold py_float.
  destruct (split_dot result) as [ip fp] eqn:E.
  destruct (split_dot_count _ _ _ E) as [H1 H2].
  destruct fp as [t|]; [|lia].
  rewrite digits_value_dot; [reflexivity|].
  rewrite count_char_append. lia.
Qed.

Lemma two_dots_raise_ValueError_witness :
  get_next_token (String "1" ".2.3 + 4") = Raise (ValueError "1.2.3").
Proof.
  apply (two_dots_raise_ValueError "1" ".2.3 + 4" "1.2.3" " + 4").
  - reflexivity.
  - reflexivity.
  - vm_compute. lia.
Defined.

(** X7: a string literal is read back as it was written: the text [s],
    free of double quotes, between two double quotes gives the [STRING]
    token with value [s], whatever [s] holds otherwise (spaces, operators,
    nothing at all), and the lexer goes on right after the closing quote. *)
Theorem string_literal_round_trip s rest :
  all_chars not_dquote s = true ->
  get_next_token (String.append (quoted s) rest) = Return (TokString s, rest).
Proof.
  intros Hs. unfold quoted.
  rewrite append_cons, append_assoc, append_cons.
  change (String.append EmptyString rest) with rest.
  cbn [get_next_token].
  change (isspace dquote) with false. change (isdigit dquote) with false.
  change (isalpha dquote) with false. change (Ascii.eqb dquote dquote) with true.
  cbv iota. unfold string_. cbv beta iota.
  rewrite (take_while_append (fun c => negb (Ascii.eqb c dquote)) s
             (String dquote rest) Hs eq_refl).
  reflexivity.
Qed.

Lemma string_literal_round_trip_witness :
  get_next_token (String.append (quoted "a + b") " + 1")
  = Return (TokString "a + b", " + 1").
Proof. apply (string_literal_round_trip "a + b" " + 1"). reflexivity. Defined.

(** X8: a double quote that is never closed raises [Unterminated string
    literal], whatever follows it. *)
Theorem unclosed_quote_raises s :
  all_chars not_dquote s = true ->
  get_next_token (String dquote s) = Raise UnterminatedString.
Proof.
  intros Hs. cbn [get_next_token].
  change (isspace dquote) with false. change (isdigit dquote) with false.
  change (isalpha dquote) with false. change (Ascii.eqb dquote dquote) with true.
  cbv iota. unfold string_. cbv beta iota.
  rewrite <- (append_empty_r s) at 1.
  rewrite (take_while_append (fun c => negb (Ascii.eqb c dquote)) s
             EmptyString Hs eq_refl).
  reflexivity.
Qed.

Lemma unclosed_quote_raises_witness :
  get_next_token (String dquote "abc") = Raise UnterminatedString.
Proof. apply (unclosed_quote_raises "abc"). reflexivity. Defined.

(** ** What the parser builds *)

Ltac leaves_eat :=
  match goal with
  | |- context [match eat ?t ?p with _ => _ end] =>
      destruct (eat t p) as [?p|?e|]; [|discriminate|discriminate]
  end.

Ltac leaves_call f :=
  match goal with
  | H : forall p n p', f ?fuel p = Return (n, p') -> literal_leaves n = true
    |- context [match f ?fuel ?q with _ => _ end] =>
      let E := fresh "E" in
      destruct (f fuel q) as [[?n ?p]|?e|] eqn:E;
      [ apply H in E | discriminate | discriminate ]
  end.

Ltac leaves_finish :=
  first
    [ discriminate
    | intros [= <- <-]; simpl;
      repeat match goal with H : literal_leaves _ = true |- _ => rewrite H end;
      reflexivity
    | match goal with
      | H : forall node p n p', literal_leaves node = true ->
              ?f ?fuel node p = Return (n, p') -> literal_leaves n = true
        |- ?f ?fuel ?nd ?q = Return _ -> _ =>
          apply H; simpl;
          repeat match goal with H' : literal_leaves _ = true |- _ => rewrite H' end;
          reflexivity
      end ].

Lemma parser_leaves fuel :
  (forall p n p', factor fuel p = Return (n, p') -> literal_leaves n = true) /\
  (forall node p n p', literal_leaves node = true ->
     term_loop fuel node p = Return (n, p') -> literal_leaves n = true) /\
  (forall p n p', term fuel p = Return (n, p') -> literal_leaves n = true) /\
  (forall node p n p', literal_leaves node = true ->
     additive_loop fuel node p = Return (n, p') -> literal_leaves n = true) /\
  (forall p n p', additive fuel p = Return (n, p') -> literal_leaves n = true) /\
  (forall node p n p', literal_leaves node = true ->
     comparison_loop fuel node p = Return (n, p') -> literal_leaves n = true) /\
  (forall p n p', comparison fuel p = Return (n, p') -> literal_leaves n = true) /\
  (forall node p n p', literal_leaves node = true ->
     equality_loop fuel node p = Return (n, p') -> literal_leaves n = true) /\
  (forall p n p', equality fuel p = Return (n, p') -> literal_leaves n = true) /\
  (forall node p n p', literal_leaves node = true ->
     logic_and_loop fuel node p = Return (n, p') -> literal_leaves n = true) /\
  (forall p n p', logic_and fuel p = Return (n, p') -> literal_leaves n = true) /\
  (forall node p n p', literal_leaves node = true ->
     logic_or_loop fuel node p = Return (n, p') -> literal_leaves n = true) /\
  (forall p n p', logic_or fuel p = Return (n, p') -> literal_leaves n = true) /\
  (forall p n p', expr fuel p = Return (n, p') -> literal_leaves n = true).
Proof.
  induction fuel as [|fuel IH].
  - repeat apply conj; intros; discriminate.
  - destruct IH as (IHfactor & IHterm_loop & IHterm & IHadditive_loop
      & IHadditive & IHcomparison_loop & IHcomparison & IHequality_loop
      & IHequality & IHlogic_and_loop & IHlogic_and & IHlogic_or_loop
      & IHlogic_or & IHexpr).
    repeat apply conj; intros until p'; unfold_parser.
    + destruct (current_token p) as [v|s|name|[]] eqn:Hc;
        repeat first [leaves_eat | leaves_call factor | leaves_call expr];
        leaves_finish.
    + intros Hnode. destruct (type (current_token p)) eqn:Ht;
        repeat first [leaves_eat | leaves_call factor]; leaves_finish.
    + leaves_call factor; leaves_finish.
    + intros Hnode. destruct (type (current_token p)) eqn:Ht;
        repeat first [leaves_eat | leaves_call term]; leaves_finish.
    + leaves_call term; leaves_finish.
    + intros Hnode. destruct (type (current_token p)) eqn:Ht;
        repeat first [leaves_eat | leaves_call additive]; leaves_finish.
    + leaves_call additive; leaves_finish.
    + intros Hnode. destruct (type (current_token p)) eqn:Ht;
        repeat first [leaves_eat | leaves_call comparison]; leaves_finish.
    + leaves_call comparison; leaves_finish.
    + intros Hnode. destruct (type (current_token p)) eqn:Ht;
        repeat first [leaves_eat | leaves_call equality]; leaves_finish.
    + leaves_call equality; leaves_finish.
    + intros Hnode. destruct (type (current_token p)) eqn:Ht;
        repeat first [leaves_eat | leaves_call logic_and]; leaves_finish.
    + leaves_call logic_and; leaves_finish.
    + apply IHlogic_or.
Qed.

(** X9: parsing always ends: on every line [Parser.parse] returns a tree
    or raises, and the depth bound of this model plays no part in the
    outcome, since every larger bound gives the same. *)
Theorem parser_terminates line :
  parse_line line <> OutOfFuel /\
  forall n, (fuel_of line <= n)%nat ->
    (p ← Parser_init line; parse n p) = parse_line line.
Proof.
  split; [apply parse_line_total | apply parse_line_any_bound].
Qed.

Lemma parser_terminates_witness :
  (p ← Parser_init "1 + 2"; parse 200 p) = parse_line "1 + 2".
Proof.
  apply (proj2 (parser_terminates "1 + 2") 200%nat).
  unfold fuel_of. simpl. lia.
Defined.

(** The shape of the tree of a line. *)
Lemma parse_line_shape line tree p :
  parse_line line = Return (tree, p) ->
  is_stmt tree = true /\ literal_leaves tree = true.
Proof.
  intros H. split; [exact (parse_line_tree _ _ _ H)|].
  unfold parse_line, mbind, outcome_bind in H.
  destruct (Parser_init line) as [p0| |]; try discriminate.
  destruct (parser_leaves (fuel_of line)) as (_ & _ & _ & _ & _ & _ & _
    & _ & _ & _ & _ & _ & _ & Hexpr).
  revert H. unfold parse, mbind, outcome_bind.
  destruct (current_token p0) as [v|s|name|t]; try apply Hexpr.
  - destruct (eat IDENTIFIER p0) as [p1|e|]; try discriminate.
    destruct (type (current_token p1)); try discriminate.
    destruct (eat ASSIGN p1) as [p2|e|]; try discriminate.
    destruct (expr (fuel_of line) p2) as [[value p3]|e|] eqn:E; try discriminate.
    intros [= <- <-]. simpl. exact (Hexpr _ _ _ E).
  - destruct t; try apply Hexpr.
    destruct (eat PRINT p0) as [p1|e|]; try discriminate.
    destruct (expr (fuel_of line) p1) as [[value p3]|e|] eqn:E; try discriminate.
    intros [= <- <-]. simpl. exact (Hexpr _ _ _ E).
Qed.

(** X10: the tree of a line has a statement, [print] or an assignment,
    nowhere but at its root, and its leaves are floats, strings and
    booleans: the parser never builds an [int] or a [None] leaf. *)
Theorem parsed_tree_shape line tree p :
  parse_line line = Return (tree, p) ->
  is_stmt tree = true /\ literal_leaves tree = true.
Proof. exact (parse_line_shape line tree p). Qed.

Lemma parsed_tree_shape_witness :
  is_stmt (Assign "x" (BinOp Add (Leaf (VFloat 1)) (Leaf (VStr "y")))) = true /\
  literal_leaves (Assign "x" (BinOp Add (Leaf (VFloat 1)) (Leaf (VStr "y")))) = true.
Proof.
  apply (parsed_tree_shape "x = 1 + y"
           (Assign "x" (BinOp Add (Leaf (VFloat 1)) (Leaf (VStr "y"))))
           (mkParser EmptyString (Tok EOF))).
  vm_compute. reflexivity.
Defined.

(** ** What evaluation does to the state *)

(** X11: evaluating an expression stores nothing and writes nothing, so
    evaluating it again from the state it leaves gives the same outcome. *)
Theorem expression_is_pure n st :
  is_expr n = true ->
  snd (evaluate n st) = st /\
  evaluate n (snd (evaluate n st)) = evaluate n st.
Proof.
  intros Hn. pose proof (evaluate_expr_state n st Hn) as H.
  split; [exact H | rewrite H; reflexivity].
Qed.

Lemma expression_is_pure_witness :
  let n := BinOp Add (Leaf (VStr "x")) (Leaf (VFloat 5)) in
  let st := set_env "x" (VFloat 10) initial in
  snd (evaluate n st) = st /\ evaluate n (snd (evaluate n st)) = evaluate n st.
Proof.
  apply (expression_is_pure (BinOp Add (Leaf (VStr "x")) (Leaf (VFloat 5)))
           (set_env "x" (VFloat 10) initial)).
  reflexivity.
Defined.

(** X12: an assignment whose right-hand side has the value [v] returns
    [None], and afterwards the name evaluates to [v], every other name to
    what it evaluated to before, and the output is untouched; assigning
    the same name again replaces the value. *)
Theorem assignment_then_lookup name a st v st1 :
  evaluate a st = (Return v, st1) ->
  let st2 := set_env name v st1 in
  evaluate (Assign name a) st = (Return VNone, st2) /\
  evaluate (Leaf (VStr name)) st2 = (Return v, st2) /\
  (forall other, other <> name ->
     fst (evaluate (Leaf (VStr other)) st2) = fst (evaluate (Leaf (VStr other)) st1)) /\
  stdout st2 = stdout st1 /\
  (forall w, set_env name w st2 = set_env name w st1).
Proof.
  intros Ha st2. split; [|split; [|split; [|split]]].
  - simpl. rewrite Ha. reflexivity.
  - simpl. rewrite lookup_insert_eq. reflexivity.
  - intros other Hne. simpl. rewrite lookup_insert_ne by congruence.
    destruct (global_env st1 !! other); reflexivity.
  - reflexivity.
  - intros w. unfold st2, set_env. simpl. rewrite insert_insert_eq. reflexivity.
Qed.

Lemma assignment_then_lookup_witness :
  let st2 := set_env "x" (VFloat 3) initial in
  evaluate (Assign "x" (Leaf (VFloat 3))) initial = (Return VNone, st2) /\
  evaluate (Leaf (VStr "x")) st2 = (Return (VFloat 3), st2) /\
  (forall other, other <> "x" ->
     fst (evaluate (Leaf (VStr other)) st2) = fst (evaluate (Leaf (VStr other)) initial)) /\
  stdout st2 = stdout initial /\
  (forall w, set_env "x" w st2 = set_env "x" w initial).
Proof.
  apply (assignment_then_lookup "x" (Leaf (VFloat 3)) initial (VFloat 3) initial).
  reflexivity.
Defined.

Lemma arith_not_None iop fop a b v :
  arith iop fop a b = Return v -> v <> VNone.
Proof.
  unfold arith, mbind, outcome_bind.
  destruct a, b; try (intros [= <-]; discriminate);
    repeat match goal with
           | |- context [to_float ?n] => destruct (to_float n)
           end; try discriminate; intros [= <-]; discriminate.
Qed.

Lemma binary_not_None op lval rval v :
  lval <> VNone -> rval <> VNone ->
  binary op lval rval = Return v -> v <> VNone.
Proof.
  intros Hl Hr. destruct op; cbn [binary].
  - unfold py_add, unsupported.
    destruct lval, rval; cbn -[arith]; try discriminate;
      first [apply arith_not_None | intros [= <-]; discriminate].
  - unfold py_sub, unsupported.
    destruct lval, rval; cbn -[arith]; try discriminate; apply arith_not_None.
  - unfold py_mul, unsupported.
    destruct lval, rval; cbn -[arith py_repeat]; try discriminate;
      first [ apply arith_not_None
            | unfold py_repeat;
              repeat match goal with
                     | |- (if ?b then _ else _) = _ -> _ => destruct b
                     end; try discriminate; intros [= <-]; discriminate ].
  - destruct (py_eq rval (VInt 0)); [discriminate|].
    unfold py_truediv, unsupported, mbind, outcome_bind.
    destruct lval, rval; simpl; try discriminate;
      repeat match goal with
             | |- context [float_of_int ?n] => destruct (float_of_int n)
             | |- context [int_true_divide ?a ?b] => destruct (int_true_divide a b)
             end; try discriminate; intros [= <-]; discriminate.
  - intros [= <-]; discriminate.
  - intros [= <-]; discriminate.
  - unfold py_lt, py_order, unsupported.
    destruct lval, rval; simpl; try discriminate; intros [= <-]; discriminate.
  - unfold py_gt, py_order, unsupported.
    destruct lval, rval; simpl; try discriminate; intros [= <-]; discriminate.
  - unfold py_le, py_order, unsupported.
    destruct lval, rval; simpl; try discriminate; intros [= <-]; discriminate.
  - unfold py_ge, py_order, unsupported.
    destruct lval, rval; simpl; try discriminate; intros [= <-]; discriminate.
  - destruct (truthy lval); intros [= <-]; assumption.
  - destruct (truthy lval); intros [= <-]; assumption.
Qed.

(** A parsed expression has a value other than [None]. *)
Lemma evaluate_not_None n st v st' :
  no_None st ->
  is_expr n = true -> literal_leaves n = true ->
  evaluate n st = (Return v, st') ->
  v <> VNone.
Proof.
  intros Hst. revert v st'.
  induction n as [x|a IH|a IH|name a IH|a IH|op lhs IHl rhs IHr];
    intros v st' He Hl H; simpl in He, Hl; try discriminate.
  - simpl in H. destruct x; try discriminate.
    + inversion H; subst. discriminate.
    + inversion H; subst. discriminate.
    + destruct (global_env st !! s) eqn:E; inversion H; subst.
      * exact (Hst _ _ E).
      * discriminate.
  - simpl in H. destruct (evaluate a st) as [[w|e|] st1]; simpl in H;
      try discriminate.
    destruct w; simpl in H; inversion H; subst; discriminate.
  - simpl in H. destruct (evaluate a st) as [[w|e|] st1]; simpl in H;
      inversion H; subst; discriminate.
  - apply andb_prop in He as [He1 He2]. apply andb_prop in Hl as [Hl1 Hl2].
    simpl in H.
    pose proof (evaluate_expr_state lhs st He1) as Hs.
    destruct (evaluate lhs st) as [[lval|e|] st1] eqn:E1; try discriminate.
    simpl in Hs. subst st1.
    destruct (evaluate rhs st) as [[rval|e|] st2] eqn:E2; try discriminate.
    inversion H; subst.
    apply (binary_not_None op lval rval);
      [exact (IHl _ _ He1 Hl1 eq_refl) | exact (IHr _ _ He2 Hl2 eq_refl) | assumption].
Qed.

(** A repetition count that does not fit [Py_ssize_t] raises
    [OverflowError], whatever the string. *)
Example repetition_count_too_large :
  evaluate (BinOp Mul (Leaf (VStr "ab")) (Leaf (VStr "x")))
    (set_env "x" (VInt (2 ^ 63)) initial)
    = (Raise OverflowError, set_env "x" (VInt (2 ^ 63)) initial).
Proof. vm_compute. reflexivity. Qed.

(** X13: while no variable holds [None], an expression built by the parser
    never evaluates to [None]: a value that is returned is a float, an
    int, a boolean or a string. *)
Theorem expression_value_is_not_None n st v st' :
  no_None st ->
  is_expr n = true -> literal_leaves n = true ->
  evaluate n st = (Return v, st') ->
  v <> VNone.
Proof. exact (evaluate_not_None n st v st'). Qed.

Lemma expression_value_is_not_None_witness : VStr "foo" <> VNone.
Proof.
  apply (expression_value_is_not_None
           (BinOp Or (Leaf (VFloat 0)) (Leaf (VStr "foo"))) initial
           (VStr "foo") initial).
  - intros name v H. vm_compute in H. discriminate.
  - reflexivity.
  - reflexivity.
  - reflexivity.
Defined.

(** ** What the line runner does *)

Lemma skip_whitespace_blank s :
  all_chars isspace s = true -> skip_whitespace s = EmptyString.
Proof.
  induction s as [|c s IH]; intros H; [reflexivity|].
  cbn [all_chars] in H. apply andb_prop in H as [Hc Hs].
  cbn [skip_whitespace]. rewrite Hc. exact (IH Hs).
Qed.

Lemma skip_whitespace_append ws s :
  all_chars isspace ws = true ->
  skip_whitespace (String.append ws s) = skip_whitespace s.
Proof.
  induction ws as [|c ws IH]; intros H; [reflexivity|].
  cbn [all_chars] in H. apply andb_prop in H as [Hc Hs].
  rewrite append_cons. cbn [skip_whitespace]. rewrite Hc. exact (IH Hs).
Qed.

Lemma skip_whitespace_stops s :
  stops isspace s = true -> skip_whitespace s = s.
Proof.
  destruct s as [|c s]; [reflexivity|]. simpl. intros H.
  destruct (isspace c); [discriminate | reflexivity].
Qed.

Lemma rstrip_blank s : all_chars isspace s = true -> rstrip s = EmptyString.
Proof.
  induction s as [|c s IH]; intros H; [reflexivity|].
  cbn [all_chars] in H. apply andb_prop in H as [Hc Hs].
  cbn [rstrip]. rewrite (IH Hs), Hc. reflexivity.
Qed.

Lemma rstrip_append s ws :
  ends_black s = true -> all_chars isspace ws = true ->
  rstrip (String.append s ws) = s.
Proof.
  intros Hs Hws. induction s as [|c s IH].
  - exact (rstrip_blank _ Hws).
  - rewrite append_cons. cbn [rstrip].
    destruct s as [|c' s'].
    + change (String.append EmptyString ws) with ws.
      rewrite (rstrip_blank _ Hws). simpl in Hs.
      destruct (isspace c); [discriminate | reflexivity].
    + rewrite IH by exact Hs. reflexivity.
Qed.

(** X14: white space around a line never matters.  A text that begins
    and ends with a character that is not white space, with any white
    space before and after it, is stripped back to that text, and the line
    does what the bare text does; a line of white space alone, or an empty
    line, does nothing at all. *)
Theorem surrounding_white_space_is_ignored ws1 s ws2 st :
  all_chars isspace ws1 = true ->
  all_chars isspace ws2 = true ->
  stops isspace s = true -> ends_black s = true ->
  strip (String.append ws1 (String.append s ws2)) = s /\
  run_line (String.append ws1 (String.append s ws2)) st = run_line s st /\
  run_line (String.append ws1 ws2) st = st.
Proof.
  intros H1 H2 Hb He.
  assert (Hstrip : forall t, stops isspace t = true -> ends_black t = true ->
            strip (String.append ws1 (String.append t ws2)) = t).
  { intros t Hbt Het. unfold strip, lstrip.
    rewrite (skip_whitespace_append _ _ H1).
    destruct t as [|c t].
    - change (String.append EmptyString ws2) with ws2.
      rewrite (skip_whitespace_blank _ H2). reflexivity.
    - rewrite skip_whitespace_stops.
      + apply rstrip_append; assumption.
      + rewrite append_cons. exact Hbt. }
  assert (Hself : strip s = s).
  { unfold strip, lstrip. rewrite (skip_whitespace_stops _ Hb).
    rewrite <- (append_empty_r s) at 1.
    apply rstrip_append; [exact He | reflexivity]. }
  split; [exact (Hstrip s Hb He)|]. split.
  - unfold run_line. rewrite (Hstrip s Hb He), Hself. reflexivity.
  - unfold run_line.
    pose proof (Hstrip EmptyString eq_refl eq_refl) as H0.
    change (String.append EmptyString ws2) with ws2 in H0.
    rewrite H0. reflexivity.
Qed.

Lemma surrounding_white_space_is_ignored_witness :
  strip (String.append "  " (String.append "x = 1" " ")) = "x = 1" /\
  run_line (String.append "  " (String.append "x = 1" " ")) initial
    = run_line "x = 1" initial /\
  run_line (String.append "  " " ") initial = initial.
Proof.
  apply (surrounding_white_space_is_ignored "  " "x = 1" " " initial);
    reflexivity.
Defined.

(** What a statement that returns has done: an assignment has stored the
    value of its right-hand side, [print] has written the value of its
    operand, both return [None]; an expression has changed nothing. *)
Lemma evaluate_stmt_Return tree st v st' :
  is_stmt tree = true -> evaluate tree st = (Return v, st') ->
  match tree with
  | Assign name a =>
      exists w, evaluate a st = (Return w, st) /\ v = VNone /\ st' = set_env name w st
  | Print a =>
      exists w, evaluate a st = (Return w, st) /\ str_raises w = false
                /\ v = VNone /\ st' = write (Printed w) st
  | _ => st' = st
  end.
Proof.
  intros Ht H.
  assert (Hexpr : forall n, is_expr n = true -> evaluate n st = (Return v, st') -> st' = st).
  { intros n Hn E. pose proof (evaluate_expr_state n st Hn) as Hs.
    rewrite E in Hs. exact Hs. }
  destruct tree as [x|a|a|name a|a|op lhs rhs]; try (apply (Hexpr _ Ht H)).
  - simpl in Ht, H. pose proof (evaluate_expr_state a st Ht) as Hs.
    destruct (evaluate a st) as [[w|e'|] st1]; simpl in Hs; subst st1;
      inversion H; subst. exists w. repeat split.
  - simpl in Ht, H. pose proof (evaluate_expr_state a st Ht) as Hs.
    destruct (evaluate a st) as [[w|e'|] st1]; simpl in Hs; subst st1;
      try discriminate.
    destruct (str_raises w) eqn:Hw; inversion H; subst.
    exists w. repeat split. exact Hw.
Qed.

Lemma parse_line_not_empty line tree p :
  parse_line line = Return (tree, p) -> line <> EmptyString.
Proof. intros H ->. vm_compute in H. discriminate. Qed.

(** X15: a [print] line whose operand has the value [v] writes [v] and
    nothing else: no echo of the line, no change of the environment.
    The one exception is an [int] of more than 4300 digits, which [print]
    cannot turn into text: the line then writes its error line instead. *)
Theorem print_line_writes_the_value line a p st v st1 :
  parse_line (strip line) = Return (Print a, p) ->
  evaluate a st = (Return v, st1) ->
  let record := if str_raises v then ErrorLine (strip line) DigitLimit
                else Printed v in
  run_line line st = write record st /\
  stdout (run_line line st) = (stdout st ++ [record])%list /\
  global_env (run_line line st) = global_env st.
Proof.
  intros Hp Ha record.
  pose proof (parse_line_tree _ _ _ Hp) as Ht. simpl in Ht.
  pose proof (evaluate_expr_state a st Ht) as Hs. rewrite Ha in Hs.
  simpl in Hs. subst st1.
  assert (Hrun : run_line line st = write record st).
  { unfold run_line, record. pose proof (parse_line_not_empty _ _ _ Hp) as Hne.
    destruct (strip line) as [|c l] eqn:E; [congruence|].
    unfold execute. rewrite Hp. cbn [evaluate]. rewrite Ha.
    destruct (str_raises v); reflexivity. }
  rewrite Hrun. repeat split.
Qed.

Lemma print_line_writes_the_value_witness :
  run_line "print 1 + 2" initial = write (Printed (VFloat 3)) initial /\
  stdout (run_line "print 1 + 2" initial)
    = (stdout initial ++ [Printed (VFloat 3)])%list /\
  global_env (run_line "print 1 + 2" initial) = global_env initial.
Proof.
  apply (print_line_writes_the_value "print 1 + 2"
           (BinOp Add (Leaf (VFloat 1)) (Leaf (VFloat 2)))
           (mkParser EmptyString (Tok EOF)) initial (VFloat 3) initial).
  - vm_compute. reflexivity.
  - vm_compute. reflexivity.
Defined.

(** The [int] 2 ^ 16384 has 4933 digits: [print] raises, and the line
    writes its error line. *)
Example print_of_a_long_int :
  stdout (run_line "print x" (set_env "x" (VInt (2 ^ 16384)) initial))
    = [ErrorLine "print x" DigitLimit].
Proof. vm_compute. reflexivity. Qed.

(** X16: an assignment line whose right-hand side has the value [v]
    stores [v] under the name and writes nothing. *)
Theorem assignment_line_stores_silently line name a p st v st1 :
  parse_line (strip line) = Return (Assign name a, p) ->
  evaluate a st = (Return v, st1) ->
  run_line line st = set_env name v st /\
  stdout (run_line line st) = stdout st /\
  global_env (run_line line st) !! name = Some v.
Proof.
  intros Hp Ha.
  pose proof (parse_line_tree _ _ _ Hp) as Ht. simpl in Ht.
  pose proof (evaluate_expr_state a st Ht) as Hs. rewrite Ha in Hs.
  simpl in Hs. subst st1.
  assert (Hrun : run_line line st = set_env name v st).
  { unfold run_line. pose proof (parse_line_not_empty _ _ _ Hp) as Hne.
    destruct (strip line) as [|c l] eqn:E; [congruence|].
    unfold execute. rewrite Hp. simpl. rewrite Ha. reflexivity. }
  rewrite Hrun. split; [reflexivity|]. split; [reflexivity|].
  simpl. apply lookup_insert_eq.
Qed.

Lemma assignment_line_stores_silently_witness :
  run_line "x = 2 * 3" initial = set_env "x" (VFloat 6) initial /\
  stdout (run_line "x = 2 * 3" initial) = stdout initial /\
  global_env (run_line "x = 2 * 3" initial) !! "x" = Some (VFloat 6).
Proof.
  apply (assignment_line_stores_silently "x = 2 * 3" "x"
           (BinOp Mul (Leaf (VFloat 2)) (Leaf (VFloat 3)))
           (mkParser EmptyString (Tok EOF)) initial (VFloat 6) initial).
  - vm_compute. reflexivity.
  - vm_compute. reflexivity.
Defined.

(** X17: while no variable holds [None], a line that is an expression with
    the value [v] is echoed with [v] and changes nothing else: the value
    is never taken for the [None] of a statement.  The one exception is
    an [int] of more than 4300 digits, which the echo cannot turn into
    text: the line then writes its error line instead. *)
Theorem expression_line_is_echoed line tree p st v st1 :
  no_None st ->
  parse_line (strip line) = Return (tree, p) ->
  is_expr tree = true ->
  evaluate tree st = (Return v, st1) ->
  let record := if str_raises v then ErrorLine (strip line) DigitLimit
                else Echo (strip line) v in
  run_line line st = write record st /\
  stdout (run_line line st) = (stdout st ++ [record])%list.
Proof.
  intros Hst Hp He Ha record.
  destruct (parse_line_shape _ _ _ Hp) as [_ Hl].
  pose proof (evaluate_not_None _ _ _ _ Hst He Hl Ha) as Hv.
  pose proof (evaluate_expr_state tree st He) as Hs. rewrite Ha in Hs.
  simpl in Hs. subst st1.
  assert (Hrun : run_line line st = write record st).
  { unfold run_line, record. pose proof (parse_line_not_empty _ _ _ Hp) as Hne.
    destruct (strip line) as [|c l] eqn:E; [congruence|].
    unfold execute. rewrite Hp, Ha.
    destruct v; try congruence; cbn [str_raises];
      try destruct (_ <=? _); reflexivity. }
  rewrite Hrun. split; reflexivity.
Qed.

Lemma expression_line_is_echoed_witness :
  run_line "1 < 2" initial = write (Echo "1 < 2" (VBool true)) initial /\
  stdout (run_line "1 < 2" initial)
    = (stdout initial ++ [Echo "1 < 2" (VBool true)])%list.
Proof.
  apply (expression_line_is_echoed "1 < 2"
           (BinOp Lt (Leaf (VFloat 1)) (Leaf (VFloat 2)))
           (mkParser EmptyString (Tok EOF)) initial (VBool true) initial).
  - intros name v H. vm_compute in H. discriminate.
  - vm_compute. reflexivity.
  - reflexivity.
  - vm_compute. reflexivity.
Defined.

(** Squaring [True + True] fourteen times gives 2 ^ 16384: the echo of
    [(x)] raises, and the line writes its error line. *)
Example echo_of_a_long_int :
  stdout (run_file
            ("x = true + true" :: repeat "x = x * x" 14 ++ ["0 < x"; "(x)"])
            initial)
    = [Echo "0 < x" (VBool true); ErrorLine "(x)" DigitLimit].
Proof. vm_compute. reflexivity. Qed.

(** ** What a whole run does *)

(** The three things a line can do: nothing, write one record, or store
    the value of the right-hand side of an assignment. *)
Lemma run_line_cases line st :
  run_line line st = st \/
  (exists o, run_line line st = write o st) \/
  (exists name a v,
     is_expr a = true /\ literal_leaves a = true /\
     evaluate a st = (Return v, st) /\
     run_line line st = set_env name v st).
Proof.
  unfold run_line. destruct (strip line) as [|c l] eqn:Hs; [left; reflexivity|].
  rewrite <- Hs. clear Hs. unfold execute.
  destruct (parse_line (strip line)) as [[tree p]|e|] eqn:Hp.
  - destruct (parse_line_shape _ _ _ Hp) as [Ht Hl].
    destruct (evaluate tree st) as [[v|e|] st'] eqn:He.
    + pose proof (evaluate_stmt_Return _ _ _ _ Ht He) as Hr.
      destruct tree as [x|a|a|name a|a|op lhs rhs];
        try (subst st'; destruct v; cbn [str_raises];
             try destruct (_ <=? _); eauto).
      * destruct Hr as (w & Ha & -> & ->). right. right.
        exists name, a, w. simpl in Ht, Hl. auto.
      * destruct Hr as (w & Ha & _ & -> & ->). right. left. eauto.
    + rewrite (evaluate_stmt_Raise _ _ _ _ Ht He). right. left. eauto.
    + exfalso. apply (evaluate_fuel tree st). rewrite He. reflexivity.
  - right. left. eauto.
  - left. reflexivity.
Qed.

(** X18: a run only ever adds to the output, at most one record for each
    line: what was written before a script stays as it is, in front. *)
Theorem output_grows_by_at_most_one_per_line lines st :
  exists out,
    stdout (run_file lines st) = (stdout st ++ out)%list /\
    (List.length out <= List.length lines)%nat.
Proof.
  revert st. induction lines as [|line lines IH]; intros st.
  - exists []. split; [symmetry; apply app_nil_r | simpl; lia].
  - change (run_file (line :: lines) st) with (run_file lines (run_line line st)).
    destruct (IH (run_line line st)) as (out & Hout & Hlen).
    rewrite Hout.
    destruct (run_line_cases line st) as [H|[(o & H)|(name & a & v & _ & _ & _ & H)]];
      rewrite H.
    + exists out. split; [reflexivity | simpl; lia].
    + exists (o :: out). split; [|simpl; lia].
      simpl. rewrite <- app_assoc. reflexivity.
    + exists out. split; [reflexivity | simpl; lia].
Qed.

(** X19: no line removes a variable: a name that has a value before a
    script has one after it. *)
Theorem variables_are_never_removed lines st name :
  is_Some (global_env st !! name) ->
  is_Some (global_env (run_file lines st) !! name).
Proof.
  revert st. induction lines as [|line lines IH]; intros st Hn; [exact Hn|].
  change (run_file (line :: lines) st) with (run_file lines (run_line line st)).
  apply IH.
  destruct (run_line_cases line st) as [H|[(o & H)|(x & a & v & _ & _ & _ & H)]];
    rewrite H; try exact Hn.
  simpl. destruct (decide (x = name)) as [->|Hne].
  - rewrite lookup_insert_eq. eauto.
  - rewrite lookup_insert_ne by exact Hne. exact Hn.
Qed.

Lemma variables_are_never_removed_witness :
  is_Some (global_env (run_file ["y = 2"; "x + 1"; "x = x / 0"]
                         (set_env "x" (VFloat 1) initial)) !! "x").
Proof.
  apply (variables_are_never_removed ["y = 2"; "x + 1"; "x = x / 0"]
           (set_env "x" (VFloat 1) initial) "x").
  vm_compute. eauto.
Defined.

(** X20: no variable ever holds [None]: a state without one stays
    without one over any script, so from the empty environment every
    stored value is a float, an int, a boolean or a string. *)
Theorem no_variable_holds_None lines st :
  no_None st -> no_None (run_file lines st).
Proof.
  revert st. induction lines as [|line lines IH]; intros st Hst; [exact Hst|].
  change (run_file (line :: lines) st) with (run_file lines (run_line line st)).
  apply IH.
  destruct (run_line_cases line st) as [H|[(o & H)|(x & a & v & He & Hl & Ha & H)]];
    rewrite H; try exact Hst.
  intros name w. simpl. destruct (decide (x = name)) as [->|Hne].
  - rewrite lookup_insert_eq. intros [= <-].
    exact (evaluate_not_None _ _ _ _ Hst He Hl Ha).
  - rewrite lookup_insert_ne by exact Hne. apply Hst.
Qed.

Lemma no_variable_holds_None_witness :
  no_None (run_file ["x = 1"; "y = x or z"] initial).
Proof.
  apply (no_variable_holds_None ["x = 1"; "y = x or z"] initial).
  intros name v H. vm_compute in H. discriminate.
Defined.

(** ** Associativity and precedence *)

(** One layer of each parsing function, at any depth bound. *)
Lemma term_eq k p :
  term (S k) p = ('(node, p') ← factor k p; term_loop k node p').
Proof. reflexivity. Qed.

Lemma additive_eq k p :
  additive (S k) p = ('(node, p') ← term k p; additive_loop k node p').
Proof. reflexivity. Qed.

Lemma comparison_eq k p :
  comparison (S k) p = ('(node, p') ← additive k p; comparison_loop k node p').
Proof. reflexivity. Qed.

Lemma equality_eq k p :
  equality (S k) p = ('(node, p') ← comparison k p; equality_loop k node p').
Proof. reflexivity. Qed.

Lemma logic_and_eq k p :
  logic_and (S k) p = ('(node, p') ← equality k p; logic_and_loop k node p').
Proof. reflexivity. Qed.

Lemma logic_or_eq k p :
  logic_or (S k) p = ('(node, p') ← logic_and k p; logic_or_loop k node p').
Proof. reflexivity. Qed.

Lemma expr_eq k p : expr (S k) p = logic_or k p.
Proof. reflexivity. Qed.

Lemma eat_current tt text tok :
  type tok = tt ->
  eat tt (mkParser text tok)
  = ('(tok', text') ← get_next_token text; Return (mkParser text' tok')).
Proof.
  intros <-. unfold eat. cbn [current_token lexer].
  destruct (token_type_eqb (type tok) (type tok)) eqn:E; [reflexivity|].
  assert (H : token_type_eqb (type tok) (type tok) = true)
    by (apply token_type_eqb_eq; reflexivity).
  congruence.
Qed.

Lemma factor_number k v text tok text' :
  get_next_token text = Return (tok, text') ->
  factor (S k) (mkParser text (TokInteger v))
  = Return (Leaf (VFloat v), mkParser text' tok).
Proof.
  intros H.
  change (factor (S k) (mkParser text (TokInteger v)))
    with (p ← eat INTEGER (mkParser text (TokInteger v));
          Return (Leaf (VFloat v), p)).
  rewrite (eat_current INTEGER) by reflexivity. rewrite H. reflexivity.
Qed.

(** The step of each loop on an operator of its own. *)
Lemma term_loop_step k node text o op :
  term_op o = Some op ->
  term_loop (S k) node (mkParser text (Tok o))
  = (p ← eat o (mkParser text (Tok o)); '(rhs, p) ← factor k p;
     term_loop k (BinOp op node rhs) p).
Proof. destruct o; intros [= <-]; reflexivity. Qed.

Lemma additive_loop_step k node text o op :
  additive_op o = Some op ->
  additive_loop (S k) node (mkParser text (Tok o))
  = (p ← eat o (mkParser text (Tok o)); '(rhs, p) ← term k p;
     additive_loop k (BinOp op node rhs) p).
Proof. destruct o; intros [= <-]; reflexivity. Qed.

Lemma term_loop_stop k node p :
  term_op (type (current_token p)) = None ->
  term_loop (S k) node p = Return (node, p).
Proof.
  intros H.
  change (term_loop (S k) node p)
    with (match type (current_token p) with
          | MUL => p ← eat MUL p; '(rhs, p) ← factor k p;
                   term_loop k (BinOp Mul node rhs) p
          | DIV => p ← eat DIV p; '(rhs, p) ← factor k p;
                   term_loop k (BinOp Div node rhs) p
          | _ => Return (node, p)
          end).
  destruct (type (current_token p)); try reflexivity; discriminate.
Qed.

Lemma additive_loop_stop k node p :
  additive_op (type (current_token p)) = None ->
  additive_loop (S k) node p = Return (node, p).
Proof.
  intros H.
  change (additive_loop (S k) node p)
    with (match type (current_token p) with
          | PLUS => p ← eat PLUS p; '(rhs, p) ← term k p;
                    additive_loop k (BinOp Add node rhs) p
          | MINUS => p ← eat MINUS p; '(rhs, p) ← term k p;
                     additive_loop k (BinOp Sub node rhs) p
          | _ => Return (node, p)
          end).
  destruct (type (current_token p)); try reflexivity; discriminate.
Qed.

(** From [additive] up to [expr], when the token after the additive
    expression is no binary operator. *)
Lemma expr_of_additive k p r q :
  additive (S k) p = Return (r, q) ->
  is_binary_operator (type (current_token q)) = false ->
  expr (S (S (S (S (S (S k)))))) p = Return (r, q).
Proof.
  intros Ha Hq.
  pose proof (fun j nd => loops_stop j nd q Hq) as Hl.
  rewrite expr_eq, logic_or_eq, logic_and_eq, equality_eq, comparison_eq, Ha.
  unfold mbind, outcome_bind.
  rewrite (proj1 (proj2 (proj2 (Hl _ _)))).
  rewrite (proj1 (proj2 (proj2 (proj2 (Hl _ _))))).
  rewrite (proj1 (proj2 (proj2 (proj2 (proj2 (Hl _ _)))))).
  exact (proj2 (proj2 (proj2 (proj2 (proj2 (Hl _ _)))))).
Qed.

Lemma parse_line_number line a t0 r q k :
  Parser_init line = Return (mkParser t0 (TokInteger a)) ->
  expr (S k) (mkParser t0 (TokInteger a)) = Return (r, q) ->
  parse_line line = Return (r, q).
Proof.
  intros Hinit He.
  unfold parse_line, mbind, outcome_bind. rewrite Hinit.
  assert (Hparse : forall f, parse f (mkParser t0 (TokInteger a))
                     = expr f (mkParser t0 (TokInteger a))) by reflexivity.
  rewrite Hparse.
  destruct (parser_fuel (S k) (Nat.max (S k) (fuel_of line)) ltac:(lia))
    as (_ & _ & _ & _ & _ & _ & _ & _ & _ & _ & _ & _ & _ & Hup).
  destruct (parser_fuel (fuel_of line) (Nat.max (S k) (fuel_of line)) ltac:(lia))
    as (_ & _ & _ & _ & _ & _ & _ & _ & _ & _ & _ & _ & _ & Hdown).
  rewrite <- He, <- Hup by (rewrite He; discriminate).
  symmetry. apply Hdown. rewrite <- Hparse.
  pose proof (parse_line_total line) as Ht.
  unfold parse_line, mbind, outcome_bind in Ht. rewrite Hinit in Ht. exact Ht.
Qed.

(** X21: [+] and [-] associate to the left: the numbers [a], [b], [c]
    with two additive operators between them, followed by a token that is
    no binary operator, parse to the tree of [(a o1 b) o2 c]. *)
Theorem additive_is_left_associative
    line a b c o1 o2 op1 op2 tend t0 t1 t2 t3 t4 t5 :
  Parser_init line = Return (mkParser t0 (TokInteger a)) ->
  get_next_token t0 = Return (Tok o1, t1) -> additive_op o1 = Some op1 ->
  get_next_token t1 = Return (TokInteger b, t2) ->
  get_next_token t2 = Return (Tok o2, t3) -> additive_op o2 = Some op2 ->
  get_next_token t3 = Return (TokInteger c, t4) ->
  get_next_token t4 = Return (tend, t5) ->
  is_binary_operator (type tend) = false ->
  parse_line line
  = Return (BinOp op2 (BinOp op1 (Leaf (VFloat a)) (Leaf (VFloat b)))
              (Leaf (VFloat c)),
            mkParser t5 tend).
Proof.
  intros Hinit H0 Ho1 H1 H2 Ho2 H3 H4 Hend.
  assert (Hno1 : term_op o1 = None) by (destruct o1; simpl in *; congruence).
  assert (Hno2 : term_op o2 = None) by (destruct o2; simpl in *; congruence).
  assert (Hno3 : term_op (type tend) = None)
    by (destruct (type tend); simpl in *; congruence).
  assert (Hno4 : additive_op (type tend) = None)
    by (destruct (type tend); simpl in *; congruence).
  apply (parse_line_number line a t0 _ _ (5 + 6) Hinit).
  change (S (5 + 6)) with (S (S (S (S (S (S 6)))))).
  apply expr_of_additive; [|exact Hend].
  rewrite additive_eq, term_eq, (factor_number _ _ _ _ _ H0).
  unfold mbind, outcome_bind.
  rewrite term_loop_stop by exact Hno1.
  rewrite (additive_loop_step _ _ _ _ _ Ho1), (eat_current o1) by reflexivity.
  rewrite H1. unfold mbind, outcome_bind.
  rewrite term_eq, (factor_number _ _ _ _ _ H2). unfold mbind, outcome_bind.
  rewrite term_loop_stop by exact Hno2.
  rewrite (additive_loop_step _ _ _ _ _ Ho2), (eat_current o2) by reflexivity.
  rewrite H3. unfold mbind, outcome_bind.
  rewrite term_eq, (factor_number _ _ _ _ _ H4). unfold mbind, outcome_bind.
  rewrite term_loop_stop by exact Hno3.
  apply additive_loop_stop. exact Hno4.
Qed.

Lemma additive_is_left_associative_witness :
  parse_line "1 - 2 - 3"
  = Return (BinOp Sub (BinOp Sub (Leaf (VFloat 1)) (Leaf (VFloat 2)))
              (Leaf (VFloat 3)),
            mkParser EmptyString (Tok EOF)).
Proof.
  apply (additive_is_left_associative "1 - 2 - 3" 1 2 3 MINUS MINUS Sub Sub
           (Tok EOF) " - 2 - 3" " 2 - 3" " - 3" " 3" EmptyString EmptyString);
    reflexivity.
Defined.

(** X22: [*] and [/] bind tighter than [+] and [-]: the numbers [a], [b],
    [c] with an additive operator and then a multiplicative one between
    them, followed by a token that is no binary operator, parse to the
    tree of [a o1 (b o2 c)]. *)
Theorem term_binds_tighter_than_additive
    line a b c o1 o2 op1 op2 tend t0 t1 t2 t3 t4 t5 :
  Parser_init line = Return (mkParser t0 (TokInteger a)) ->
  get_next_token t0 = Return (Tok o1, t1) -> additive_op o1 = Some op1 ->
  get_next_token t1 = Return (TokInteger b, t2) ->
  get_next_token t2 = Return (Tok o2, t3) -> term_op o2 = Some op2 ->
  get_next_token t3 = Return (TokInteger c, t4) ->
  get_next_token t4 = Return (tend, t5) ->
  is_binary_operator (type tend) = false ->
  parse_line line
  = Return (BinOp op1 (Leaf (VFloat a))
              (BinOp op2 (Leaf (VFloat b)) (Leaf (VFloat c))),
            mkParser t5 tend).
Proof.
  intros Hinit H0 Ho1 H1 H2 Ho2 H3 H4 Hend.
  assert (Hno1 : term_op o1 = None) by (destruct o1; simpl in *; congruence).
  assert (Hno3 : term_op (type tend) = None)
    by (destruct (type tend); simpl in *; congruence).
  assert (Hno4 : additive_op (type tend) = None)
    by (destruct (type tend); simpl in *; congruence).
  apply (parse_line_number line a t0 _ _ (5 + 6) Hinit).
  change (S (5 + 6)) with (S (S (S (S (S (S 6)))))).
  apply expr_of_additive; [|exact Hend].
  rewrite additive_eq, term_eq, (factor_number _ _ _ _ _ H0).
  unfold mbind, outcome_bind.
  rewrite term_loop_stop by exact Hno1.
  rewrite (additive_loop_step _ _ _ _ _ Ho1), (eat_current o1) by reflexivity.
  rewrite H1. unfold mbind, outcome_bind.
  rewrite term_eq, (factor_number _ _ _ _ _ H2). unfold mbind, outcome_bind.
  rewrite (term_loop_step _ _ _ _ _ Ho2), (eat_current o2) by reflexivity.
  rewrite H3. unfold mbind, outcome_bind.
  rewrite (factor_number _ _ _ _ _ H4).
  rewrite term_loop_stop by exact Hno3.
  apply additive_loop_stop. exact Hno4.
Qed.

Lemma term_binds_tighter_than_additive_witness :
  parse_line "2 + 3 * 4"
  = Return (BinOp Add (Leaf (VFloat 2))
              (BinOp Mul (Leaf (VFloat 3)) (Leaf (VFloat 4))),
            mkParser EmptyString (Tok EOF)).
Proof.
  apply (term_binds_tighter_than_additive "2 + 3 * 4" 2 3 4 PLUS MUL Add Mul
           (Tok EOF) " + 3 * 4" " 3 * 4" " * 4" " 4" EmptyString EmptyString);
    reflexivity.
Defined.
